(** * Repository.ts: a CRUD repository over the browser's localStorage

    A shallow embedding of [src/Repository.ts].  The class keeps one
    collection as a JSON array under one localStorage key; every method
    reads the whole array, works on it in memory and writes it back.

    The host environment (localStorage, JSON, uuid, console) is not part
    of the repository: localStorage is a finite map from keys to strings,
    [JSON.parse], [JSON.stringify] and [uuidv4] are operations of a [Host]
    whose laws are stated in [HostLaws], and effects are recorded in a
    trace so that "no write occurs" can be stated. *)

From Stdlib Require Import ZArith String Ascii List Bool Lia DecimalN DecimalFacts.
From stdpp Require Import gmap strings list fin_maps.

Local Open Scope string_scope.
Local Open Scope list_scope.
Local Open Scope Z_scope.

(** ** Data model *)

(** JSON values, the payload of documents.  Numbers are kept as
    integers: the repository carries numbers around and never computes
    with them. *)
#[local] Unset Elimination Schemes.
Inductive json : Type :=
  | JNull
  | JBool (b : bool)
  | JNum (n : Z)
  | JStr (s : string)
  | JArr (l : list json)
  | JObj (o : list (string * json)).
#[local] Set Elimination Schemes.

(** A document is a JS object used as a map from property names to
    values; [item !! key] is [item[key]], with [None] for [undefined].
    Only the top level of a document is indexed by the repository; nested
    values keep their syntax tree. *)
Abbreviation doc := (gmap string json).

(** JS truthiness of a property read: [!v]. *)
Definition falsy (v : option json) : bool :=
  match v with
  | None => true
  | Some JNull => true
  | Some (JBool b) => negb b
  | Some (JNum n) => (n =? 0)%Z
  | Some (JStr s) => String.eqb s ""
  | Some (JArr _) => false
  | Some (JObj _) => false
  end.

(** [!s] for a value of type string. *)
Definition falsy_string (s : string) : bool := String.eqb s "".

(** [v === s] where [s] is a string: true only for the same string. *)
Definition strict_eq_string (v : option json) (s : string) : bool :=
  match v with
  | Some (JStr t) => String.eqb t s
  | _ => false
  end.

(** [{...a, ...b}]: the own properties of [a], overwritten and extended
    by those of [b]. *)
Definition spread (a b : doc) : doc := b ∪ a.

(** [Array.prototype.findIndex]: the index of the first element that
    satisfies [p], or [-1]. *)
Fixpoint findIndex_from {A : Type} (p : A -> bool) (l : list A) (i : Z) : Z :=
  match l with
  | [] => -1
  | x :: l' => if p x then i else findIndex_from p l' (i + 1)
  end.

Definition findIndex {A : Type} (p : A -> bool) (l : list A) : Z :=
  findIndex_from p l 0.

(** What [JSON.parse] makes of a stored text, seen at the type [T[]] the
    source gives it. *)
Inductive parsed : Type :=
  | Invalid                         (* not JSON: JSON.parse throws SyntaxError *)
  | Collection (items : list doc)   (* a JSON array of objects *)
  | OtherJSON.                      (* valid JSON of another shape *)

(** The host functions the repository calls. [uuidv4 n] is the [n]-th
    identifier the generator hands out. *)
Class Host : Type := {
  JSON_stringify : list doc -> string;
  JSON_parse : string -> parsed;
  uuidv4 : nat -> string
}.

(** ** A reference JSON codec

    [JSON.stringify] and [JSON.parse] for the values above, over 8-bit
    characters: compact output, the escapes of [JSON.stringify], and a
    recursive-descent parser that skips white space.  Numbers with a
    fraction or an exponent have no value in the data model and are not
    accepted.  It instantiates the [Host] below; the theorems about the
    repository only rely on [HostLaws]. *)
Module JSONText.

Definition dquote : ascii := "034"%char.
Definition backslash : ascii := "092"%char.

Definition is_ws (c : ascii) : bool :=
  ((c =? " ") || (c =? "009") || (c =? "010") || (c =? "013"))%char.

Fixpoint skip_ws (s : list ascii) : list ascii :=
  match s with
  | [] => []
  | c :: r => if is_ws c then skip_ws r else s
  end.

(** *** Strings *)

Definition hex_digit (n : N) : ascii :=
  if (n <? 10)%N then ascii_of_N (48 + n) else ascii_of_N (87 + n).

Definition escape_char (c : ascii) : list ascii :=
  if (c =? dquote)%char then [backslash; dquote]
  else if (c =? backslash)%char then [backslash; backslash]
  else if (c =? "008")%char then [backslash; "b"%char]
  else if (c =? "009")%char then [backslash; "t"%char]
  else if (c =? "010")%char then [backslash; "n"%char]
  else if (c =? "012")%char then [backslash; "f"%char]
  else if (c =? "013")%char then [backslash; "r"%char]
  else if (N_of_ascii c <? 32)%N
       then [backslash; "u"%char; "0"%char; "0"%char;
             hex_digit (N_of_ascii c / 16); hex_digit (N_of_ascii c mod 16)]
  else [c].

Definition print_string (s : string) : list ascii :=
  dquote :: flat_map escape_char (list_ascii_of_string s) ++ [dquote].

Definition hex_value (c : ascii) : option N :=
  let n := N_of_ascii c in
  if ((48 <=? n) && (n <=? 57))%N then Some (n - 48)%N
  else if ((97 <=? n) && (n <=? 102))%N then Some (n - 87)%N
  else if ((65 <=? n) && (n <=? 70))%N then Some (n - 55)%N
  else None.

Definition hex4 (a b c d : ascii) : option N :=
  match hex_value a, hex_value b, hex_value c, hex_value d with
  | Some x, Some y, Some z, Some t => Some (((x * 16 + y) * 16 + z) * 16 + t)%N
  | _, _, _, _ => None
  end.

Definition unescape (e : ascii) : option ascii :=
  if (e =? dquote)%char then Some dquote
  else if (e =? backslash)%char then Some backslash
  else if (e =? "/")%char then Some "/"%char
  else if (e =? "b")%char then Some "008"%char
  else if (e =? "t")%char then Some "009"%char
  else if (e =? "n")%char then Some "010"%char
  else if (e =? "f")%char then Some "012"%char
  else if (e =? "r")%char then Some "013"%char
  else None.

Definition push (c : ascii) (p : option (list ascii * list ascii))
  : option (list ascii * list ascii) :=
  match p with
  | Some (cs, r) => Some (c :: cs, r)
  | None => None
  end.

(** The characters of a string literal after its opening quote, and the
    text after its closing quote. *)
Fixpoint parse_chars (s : list ascii) : option (list ascii * list ascii) :=
  match s with
  | [] => None
  | c :: r =>
      if (c =? dquote)%char then Some ([], r)
      else if (c =? backslash)%char then
        match r with
        | [] => None
        | e :: r1 =>
            if (e =? "u")%char then
              match r1 with
              | h1 :: h2 :: h3 :: h4 :: r2 =>
                  match hex4 h1 h2 h3 h4 with
                  | Some n => if (n <? 256)%N then push (ascii_of_N n) (parse_chars r2)
                              else None
                  | None => None
                  end
              | _ => None
              end
            else
              match unescape e with
              | Some c' => push c' (parse_chars r1)
              | None => None
              end
        end
      else if (N_of_ascii c <? 32)%N then None
      else push c (parse_chars r)
  end.

(** *** Numbers *)

Fixpoint print_uint (u : Decimal.uint) : list ascii :=
  match u with
  | Decimal.Nil => []
  | Decimal.D0 u' => "0"%char :: print_uint u'
  | Decimal.D1 u' => "1"%char :: print_uint u'
  | Decimal.D2 u' => "2"%char :: print_uint u'
  | Decimal.D3 u' => "3"%char :: print_uint u'
  | Decimal.D4 u' => "4"%char :: print_uint u'
  | Decimal.D5 u' => "5"%char :: print_uint u'
  | Decimal.D6 u' => "6"%char :: print_uint u'
  | Decimal.D7 u' => "7"%char :: print_uint u'
  | Decimal.D8 u' => "8"%char :: print_uint u'
  | Decimal.D9 u' => "9"%char :: print_uint u'
  end.

Definition print_number (n : Z) : list ascii :=
  (if n <? 0 then ["-"%char] else []) ++ print_uint (N.to_uint (Z.abs_N n)).

Definition digit (c : ascii) : option (Decimal.uint -> Decimal.uint) :=
  if (c =? "0")%char then Some Decimal.D0
  else if (c =? "1")%char then Some Decimal.D1
  else if (c =? "2")%char then Some Decimal.D2
  else if (c =? "3")%char then Some Decimal.D3
  else if (c =? "4")%char then Some Decimal.D4
  else if (c =? "5")%char then Some Decimal.D5
  else if (c =? "6")%char then Some Decimal.D6
  else if (c =? "7")%char then Some Decimal.D7
  else if (c =? "8")%char then Some Decimal.D8
  else if (c =? "9")%char then Some Decimal.D9
  else None.

Fixpoint parse_uint (s : list ascii) : Decimal.uint * list ascii :=
  match s with
  | [] => (Decimal.Nil, [])
  | c :: r =>
      match digit c with
      | Some d => let '(u, r') := parse_uint r in (d u, r')
      | None => (Decimal.Nil, s)
      end
  end.

(** No digits, or a zero followed by more digits, is not a JSON number. *)
Definition well_formed_uint (u : Decimal.uint) : bool :=
  match u with
  | Decimal.Nil => false
  | Decimal.D0 Decimal.Nil => true
  | Decimal.D0 _ => false
  | _ => true
  end.

Definition parse_number (s : list ascii) : option (Z * list ascii) :=
  match s with
  | [] => None
  | c :: r =>
      if (c =? "-")%char then
        let '(u, r') := parse_uint r in
        if well_formed_uint u then Some (- Z.of_N (N.of_uint u), r') else None
      else
        let '(u, r') := parse_uint s in
        if well_formed_uint u then Some (Z.of_N (N.of_uint u), r') else None
  end.

(** *** Values *)

Fixpoint print_elems (pr : json -> list ascii) (l : list json) : list ascii :=
  match l with
  | [] => []
  | x :: l' => pr x ++ match l' with [] => [] | _ :: _ => ","%char :: print_elems pr l' end
  end.

Fixpoint print_members (pr : json -> list ascii) (o : list (string * json))
  : list ascii :=
  match o with
  | [] => []
  | (k, x) :: o' =>
      print_string k ++ ":"%char :: pr x
        ++ match o' with [] => [] | _ :: _ => ","%char :: print_members pr o' end
  end.

Fixpoint print_json (v : json) : list ascii :=
  match v with
  | JNull => list_ascii_of_string "null"
  | JBool true => list_ascii_of_string "true"
  | JBool false => list_ascii_of_string "false"
  | JNum n => print_number n
  | JStr s => print_string s
  | JArr l => "["%char :: print_elems print_json l ++ ["]"%char]
  | JObj o => "{"%char :: print_members print_json o ++ ["}"%char]
  end.

(** [keyword k v s]: [s] without the prefix [k], with the value [v]. *)
Fixpoint keyword (k : list ascii) (v : json) (s : list ascii)
  : option (json * list ascii) :=
  match k, s with
  | [], _ => Some (v, s)
  | a :: k', c :: s' => if (a =? c)%char then keyword k' v s' else None
  | _ :: _, [] => None
  end.

Fixpoint parse_value (fuel : nat) (s : list ascii) {struct fuel}
  : option (json * list ascii) :=
  match fuel with
  | O => None
  | S fuel' =>
      match skip_ws s with
      | [] => None
      | c :: r =>
          if (c =? "n")%char then keyword (list_ascii_of_string "ull") JNull r
          else if (c =? "t")%char then keyword (list_ascii_of_string "rue") (JBool true) r
          else if (c =? "f")%char then keyword (list_ascii_of_string "alse") (JBool false) r
          else if (c =? dquote)%char then
            match parse_chars r with
            | Some (cs, r') => Some (JStr (string_of_list_ascii cs), r')
            | None => None
            end
          else if (c =? "[")%char then
            match skip_ws r with
            | [] => None
            | c' :: r' =>
                if (c' =? "]")%char then Some (JArr [], r')
                else match parse_elems fuel' (c' :: r') with
                     | Some (l, r'') => Some (JArr l, r'')
                     | None => None
                     end
            end
          else if (c =? "{")%char then
            match skip_ws r with
            | [] => None
            | c' :: r' =>
                if (c' =? "}")%char then Some (JObj [], r')
                else match parse_members fuel' (c' :: r') with
                     | Some (o, r'') => Some (JObj o, r'')
                     | None => None
                     end
            end
          else
            match parse_number (c :: r) with
            | Some (n, r') => Some (JNum n, r')
            | None => None
            end
      end
  end
with parse_elems (fuel : nat) (s : list ascii) {struct fuel}
  : option (list json * list ascii) :=
  match fuel with
  | O => None
  | S fuel' =>
      match parse_value fuel' s with
      | None => None
      | Some (v, r) =>
          match skip_ws r with
          | [] => None
          | c :: r' =>
              if (c =? ",")%char then
                match parse_elems fuel' r' with
                | Some (l, r'') => Some (v :: l, r'')
                | None => None
                end
              else if (c =? "]")%char then Some ([v], r')
              else None
          end
      end
  end
with parse_members (fuel : nat) (s : list ascii) {struct fuel}
  : option (list (string * json) * list ascii) :=
  match fuel with
  | O => None
  | S fuel' =>
      match skip_ws s with
      | [] => None
      | q :: r =>
          if (q =? dquote)%char then
            match parse_chars r with
            | None => None
            | Some (k, r1) =>
                match skip_ws r1 with
                | [] => None
                | c1 :: r2 =>
                    if (c1 =? ":")%char then
                      match parse_value fuel' r2 with
                      | None => None
                      | Some (v, r3) =>
                          match skip_ws r3 with
                          | [] => None
                          | c :: r4 =>
                              if (c =? ",")%char then
                                match parse_members fuel' r4 with
                                | Some (o, r5) =>
                                    Some ((string_of_list_ascii k, v) :: o, r5)
                                | None => None
                                end
                              else if (c =? "}")%char
                              then Some ([(string_of_list_ascii k, v)], r4)
                              else None
                          end
                      end
                    else None
                end
            end
          else None
      end
  end.

(** *** Measures used to reason about the parser *)

Fixpoint size_elems (sz : json -> nat) (l : list json) : nat :=
  match l with
  | [] => O
  | x :: l' => S (sz x + size_elems sz l')
  end.

Fixpoint size_members (sz : json -> nat) (o : list (string * json)) : nat :=
  match o with
  | [] => O
  | (_, x) :: o' => S (sz x + size_members sz o')
  end.

(** The fuel [parse_value] needs for the text of a value. *)
Fixpoint size (v : json) : nat :=
  match v with
  | JArr l => S (size_elems size l)
  | JObj o => S (size_members size o)
  | _ => 1%nat
  end.

(** A character that may follow a value inside a text. *)
Definition delimiter (c : ascii) : bool :=
  ((c =? ",") || (c =? "]") || (c =? "}"))%char.

Definition delimited (r : list ascii) : Prop :=
  match r with
  | [] => True
  | c :: _ => delimiter c = true
  end.

(** The text of a number starts with a sign or a digit. *)
Definition number_start (c : ascii) : bool :=
  ((c =? "-") || match digit c with Some _ => true | None => false end)%char.

(** A whole text: one value, then only white space. *)
Definition parse_json (text : string) : option json :=
  let cs := list_ascii_of_string text in
  match parse_value (S (length cs)) cs with
  | Some (v, r) => match skip_ws r with [] => Some v | _ :: _ => None end
  | None => None
  end.

(** *** Collections *)

(** The object a JSON object text denotes: a repeated name keeps its last
    value. *)
Definition as_doc (v : json) : option doc :=
  match v with
  | JObj o => Some (list_to_map (rev o))
  | _ => None
  end.

Fixpoint as_docs (l : list json) : option (list doc) :=
  match l with
  | [] => Some []
  | v :: l' =>
      match as_doc v, as_docs l' with
      | Some d, Some ds => Some (d :: ds)
      | _, _ => None
      end
  end.

Definition of_doc (d : doc) : json := JObj (map_to_list d).

Definition stringify (items : list doc) : string :=
  string_of_list_ascii (print_json (JArr (map of_doc items))).

Definition parse (text : string) : parsed :=
  match parse_json text with
  | None => Invalid
  | Some (JArr l) =>
      match as_docs l with
      | Some items => Collection items
      | None => OtherJSON
      end
  | Some _ => OtherJSON
  end.

End JSONText.

(** The identifiers of the reference host: distinct, never empty. *)
Definition reference_uuid (n : nat) : string :=
  "uuid-" +:+ string_of_list_ascii (JSONText.print_uint (Nat.to_uint n)).

Definition reference_host : Host := {|
  JSON_stringify := JSONText.stringify;
  JSON_parse := JSONText.parse;
  uuidv4 := reference_uuid
|}.

(** ** Effects *)

Inductive event : Type :=
  | SetItem (key value : string)
  | ConsoleWarn (msg : string) (arg : option json).

Definition loc := nat.

(** The state a call can see and change: the localStorage area, the
    caller's objects (create assigns [_id] on the objects it is given),
    the number of identifiers drawn so far and the trace of effects.
    [setItem] always succeeds: the storage quota is not modelled. *)
Record World : Type := mkWorld {
  storage : gmap string string;
  heap : gmap loc doc;
  drawn : nat;
  trace : list event
}.

Inductive exn : Type :=
  | SyntaxError   (* thrown by JSON.parse *)
  | OutsideTypes. (* the run left the shapes the source's types declare:
                     stored JSON that is not an array of objects, or a
                     reference to no object; not followed further *)

Inductive outcome (A : Type) : Type :=
  | Returned (a : A)
  | Threw (e : exn).
Arguments Returned {A} a.
Arguments Threw {A} e.

(** A computation runs in a world and yields an outcome and the world it
    leaves behind; effects made before a throw stay. *)
Definition M (A : Type) : Type := World -> outcome A * World.

Definition ret {A} (a : A) : M A := fun w => (Returned a, w).

Definition throw {A} (e : exn) : M A := fun w => (Threw e, w).

Definition bind {A B} (m : M A) (k : A -> M B) : M B :=
  fun w =>
    match m w with
    | (Returned a, w') => k a w'
    | (Threw e, w') => (Threw e, w')
    end.

Notation "'let*' x ':=' m 'in' k" := (bind m (fun x => k))
  (at level 10, x binder, k at level 200).

Definition localStorage_getItem (key : string) : M (option string) :=
  fun w => (Returned (storage w !! key), w).

Definition localStorage_setItem (key value : string) : M unit :=
  fun w => (Returned tt,
            {| storage := <[key := value]> (storage w);
               heap := heap w;
               drawn := drawn w;
               trace := trace w ++ [SetItem key value] |}).

Definition console_warn (msg : string) (arg : option json) : M unit :=
  fun w => (Returned tt,
            {| storage := storage w;
               heap := heap w;
               drawn := drawn w;
               trace := trace w ++ [ConsoleWarn msg arg] |}).

Definition deref (r : loc) : M doc :=
  fun w =>
    match heap w !! r with
    | Some o => (Returned o, w)
    | None => (Threw OutsideTypes, w)
    end.

Definition assign (r : loc) (o : doc) : M unit :=
  fun w => (Returned tt,
            {| storage := storage w;
               heap := <[r := o]> (heap w);
               drawn := drawn w;
               trace := trace w |}).

Fixpoint forEach {A} (l : list A) (f : A -> M unit) : M unit :=
  match l with
  | [] => ret tt
  | x :: l' => let* _ := f x in forEach l' f
  end.

Fixpoint mapM {A B} (f : A -> M B) (l : list A) : M (list B) :=
  match l with
  | [] => ret []
  | x :: l' => let* y := f x in let* ys := mapM f l' in ret (y :: ys)
  end.

(** ** The repository *)

Record Repository : Type := {
  collection : string;
  verbose : bool
}.

(** [NewDoc<T> | NewDoc<T>[]]: one object or an array of objects. *)
Inductive NewDocs : Type :=
  | One (d : loc)
  | Many (ds : list loc).

(** [Array.isArray(newDocs) ? newDocs : [newDocs]] *)
Definition as_array (newDocs : NewDocs) : list loc :=
  match newDocs with
  | Many ds => ds
  | One d => [d]
  end.

(** [UpdateManyDoc<T>]: an object with a string [_id] and further
    properties. *)
Record UpdateManyDoc : Type := {
  umd_id : string;
  umd_fields : doc
}.

(** The methods of [class Repository], under their source names. *)
Module Repo.
Section Operations.
Context `{host : Host}.

Definition fresh_uuid : M string :=
  fun w => (Returned (uuidv4 (drawn w)),
            {| storage := storage w;
               heap := heap w;
               drawn := S (drawn w);
               trace := trace w |}).

Definition parse_items (text : string) : M (list doc) :=
  match JSON_parse text with
  | Invalid => throw SyntaxError
  | Collection items => ret items
  | OtherJSON => throw OutsideTypes
  end.

(** [a || '[]'] for [a] the result of [getItem]: [null] and the empty
    string are falsy. *)
Definition or_empty_array (a : option string) : string :=
  match a with
  | None => "[]"
  | Some s => if falsy_string s then "[]" else s
  end.

Definition matches (query : gmap string string) (item : doc) : bool :=
  forallb (fun '(key, value) => strict_eq_string (item !! key) value)
          (map_to_list query).

Definition read (this : Repository) (query : option (gmap string string))
  : M (list doc) :=
  let* raw := localStorage_getItem (collection this) in
  let* items := parse_items (or_empty_array raw) in
  match query with
  | None => ret items
  | Some q => ret (List.filter (matches q) items)
  end.

(** [(item) => { if (!item._id) item._id = uuidv4(); }] *)
Definition ensure_id (item : loc) : M unit :=
  let* o := deref item in
  if falsy (o !! "_id")
  then let* u := fresh_uuid in assign item (<["_id" := JStr u]> o)
  else ret tt.

Definition create (this : Repository) (newDocs : NewDocs) : M (list loc) :=
  let* items := read this None in
  let newItems := as_array newDocs in
  let* _ := forEach newItems ensure_id in
  let* objs := mapM deref newItems in
  let* _ := localStorage_setItem (collection this) (JSON_stringify (items ++ objs)) in
  ret newItems.

Definition update (this : Repository) (_id : string) (upd : doc) : M Z :=
  if falsy_string _id then ret 0 else
  let* items := read this None in
  let index := findIndex (fun item => strict_eq_string (item !! "_id") _id) items in
  if index =? -1 then ret 0 else
  let updateId := upd !! "_id" in
  let updateWithoutId := delete "_id" upd in
  let* _ := (if verbose this
             then console_warn ("Trying to update item _id: " +:+ _id +:+ " with") updateId
             else ret tt) in
  let items' := alter (fun old => spread old updateWithoutId) (Z.to_nat index) items in
  let* _ := localStorage_setItem (collection this) (JSON_stringify items') in
  ret 1.

Fixpoint updateMany_loop (this : Repository) (docs : list UpdateManyDoc) (count : Z)
  : M Z :=
  match docs with
  | [] => ret count
  | d :: docs' =>
      let* n := update this (umd_id d) (delete "_id" (umd_fields d)) in
      updateMany_loop this docs' (count + n)
  end.

Definition updateMany (this : Repository) (docs : list UpdateManyDoc) : M Z :=
  if Z.of_nat (length docs) =? 0 then ret 0 else
  updateMany_loop this docs 0.

Definition delete (this : Repository) (_id : string) : M Z :=
  if falsy_string _id then ret 0 else
  let* items := read this None in
  let filteredItems :=
    List.filter (fun item => negb (strict_eq_string (item !! "_id") _id)) items in
  if Z.of_nat (length items) =? Z.of_nat (length filteredItems) then ret 0 else
  let* _ := localStorage_setItem (collection this) (JSON_stringify filteredItems) in
  ret 1.

Definition includes (ids : list string) (v : option json) : bool :=
  existsb (strict_eq_string v) ids.

Definition deleteMany (this : Repository) (_ids : list string) : M Z :=
  if Z.of_nat (length _ids) =? 0 then ret 0 else
  let* items := read this None in
  let filteredItems :=
    List.filter (fun item => negb (includes _ids (item !! "_id"))) items in
  let count := Z.of_nat (length items) - Z.of_nat (length filteredItems) in
  if count =? 0 then ret 0 else
  let* _ := localStorage_setItem (collection this) (JSON_stringify filteredItems) in
  ret count.

End Operations.
End Repo.

(** ** Vocabulary of the specification *)

(** What the host is relied on for: a stringified collection parses back
    to itself, the text of the empty array is the empty collection, the
    empty text is not JSON, and identifiers are never empty. *)
Class HostLaws (host : Host) : Prop := {
  parse_stringify : forall items, JSON_parse (JSON_stringify items) = Collection items;
  parse_empty_array : JSON_parse "[]" = Collection [];
  parse_empty_text : JSON_parse "" = Invalid;
  uuid_nonempty : forall n, uuidv4 n <> ""
}.

(** What [JSON.parse] makes of the text the repository reads for its
    collection. *)
Definition stored `{host : Host} (this : Repository) (w : World) : parsed :=
  JSON_parse (Repo.or_empty_array (storage w !! collection this)).

(** The collection state: the stored documents, in order. *)
Definition holds `{host : Host} (this : Repository) (w : World) (items : list doc)
  : Prop :=
  stored this w = Collection items.

(** [has_id id d]: the document's [_id] is the string [id]. *)
Definition has_id (id : string) (d : doc) : Prop := d !! "_id" = Some (JStr id).

(** A document passes a filter when, at every key of the filter, it
    holds the very string the filter gives. *)
Definition satisfies (query : gmap string string) (d : doc) : Prop :=
  forall key value, query !! key = Some value -> d !! key = Some (JStr value).

(** [with_id o o']: [o'] is [o] with its identifier populated: [o]
    itself when its [_id] is truthy, else [o] with a generated [_id]. *)
Definition with_id `{host : Host} (o o' : doc) : Prop :=
  if falsy (o !! "_id")
  then exists n, o' = <["_id" := JStr (uuidv4 n)]> o
  else o' = o.

(** What the loop of create does to the caller's objects: the objects it
    is given get their identifier populated, all others stay. *)
Definition ids_ensured `{host : Host} (ds : list loc) (w w' : World) : Prop :=
  storage w' = storage w /\ trace w' = trace w
  /\ forall r o, heap w !! r = Some o ->
       exists o', heap w' !! r = Some o'
                  /\ (r ∈ ds -> with_id o o') /\ (r ∉ ds -> o' = o).

(** [select P l r]: [r] is exactly the elements of [l] for which [P]
    holds, in the order of [l]. *)
Inductive select {A : Type} (P : A -> Prop) : list A -> list A -> Prop :=
  | select_nil : select P [] []
  | select_keep x l r : P x -> select P l r -> select P (x :: l) (x :: r)
  | select_drop x l r : ~ P x -> select P l r -> select P (x :: l) r.

(** "Applies update once per entry, in input order; returns the sum of
    per-call results": the updates in sequence, then the sum of what they
    returned. *)
Definition updateMany_spec `{host : Host} (this : Repository)
    (docs : list UpdateManyDoc) : M Z :=
  let* results :=
    mapM (fun d => Repo.update this (umd_id d) (delete "_id" (umd_fields d))) docs in
  ret (foldr Z.add 0 results).

(** [new Repository(collection, verbose = false)]: the default applies
    when the second argument is left out. *)
Definition new_Repository (collection : string) (verbose : option bool) : Repository :=
  {| collection := collection; verbose := default false verbose |}.

(** The identifiers of a collection, in stored order ([None] for a
    document without [_id]). *)
Definition ids (items : list doc) : list (option json) :=
  map (fun d : doc => d !! "_id") items.

(** [names_stored items id]: [id] is not empty and is the [_id] of a
    document of [items]. *)
Definition names_stored (items : list doc) (id : string) : bool :=
  negb (falsy_string id)
  && existsb (fun item : doc => strict_eq_string (item !! "_id") id) items.

(** The world after [setItem] of the collection key with the text of
    [items]. *)
Definition persisted `{host : Host} (this : Repository) (items : list doc)
    (w : World) : World :=
  snd (localStorage_setItem (collection this) (JSON_stringify items) w).




(** The writes of a trace, without the warnings. *)
Definition is_write (e : event) : bool :=
  match e with
  | SetItem _ _ => true
  | ConsoleWarn _ _ => false
  end.

Definition writes (w : World) : list event := List.filter is_write (trace w).


(** ** A concrete host and collection, for examples *)

Module Example.

Definition notes : Repository := {| collection := "notes"; verbose := false |}.

Definition log : Repository := {| collection := "notes"; verbose := true |}.

Definition alice : doc := <["_id" := JStr "a1"]> (<["name" := JStr "Alice"]> ∅).

Definition bob : doc := <["_id" := JStr "b2"]> (<["name" := JStr "Bob"]> ∅).

(** Two new documents: one without [_id], one with an empty [_id]. *)
Definition carol : doc := <["name" := JStr "Carol"]> ∅.

Definition dave : doc := <["_id" := JStr ""]> (<["name" := JStr "Dave"]> ∅).

(** A world whose collection text is [text] and whose caller holds the
    objects [objs] at the addresses 0, 1, ... *)
Definition world_with (text : string) (objs : list doc) : World :=
  {| storage := {["notes" := text]};
     heap := map_seq 0 objs;
     drawn := 0;
     trace := [] |}.

Definition fresh_world (objs : list doc) : World :=
  {| storage := ∅; heap := map_seq 0 objs; drawn := 0; trace := [] |}.

(** The collection after create was given the same identifier twice. *)
Definition twins : World :=
  snd (Repo.create (host := reference_host) notes (Many [0%nat; 1%nat])
         (fresh_world [alice; alice])).

(** The collection holds Alice and Bob. *)
Definition two_notes : World :=
  world_with (JSONText.stringify [alice; bob]) [carol; dave].

(** A stored text that is not JSON. *)
Definition corrupt : World := world_with "{oops" [carol].

End Example.

(** ** The reference codec round-trips *)

Module JSONTextFacts.
Import JSONText.

Lemma parse_chars_escape (c : ascii) (r : list ascii) :
  parse_chars (escape_char c ++ r) = push c (parse_chars r).
Proof. destruct c as [[] [] [] [] [] [] [] []]; reflexivity. Qed.

Lemma parse_chars_print (cs r : list ascii) :
  parse_chars (flat_map escape_char cs ++ dquote :: r) = Some (cs, r).
Proof.
  induction cs as [|c cs IH]; [reflexivity|].
  cbn [flat_map]. rewrite <- app_assoc, parse_chars_escape, IH. reflexivity.
Qed.

Lemma parse_string_print (s : string) (r : list ascii) :
  exists t, print_string s ++ r = dquote :: t
            /\ parse_chars t = Some (list_ascii_of_string s, r).
Proof.
  exists (flat_map escape_char (list_ascii_of_string s) ++ dquote :: r). split.
  - unfold print_string. cbn [app]. rewrite <- app_assoc. reflexivity.
  - apply parse_chars_print.
Qed.

Lemma delimiter_not_digit (c : ascii) : delimiter c = true -> digit c = None.
Proof. destruct c as [[] [] [] [] [] [] [] []]; cbv; congruence. Qed.

Lemma parse_uint_print (u : Decimal.uint) (r : list ascii) :
  delimited r -> parse_uint (print_uint u ++ r) = (u, r).
Proof.
  intros Hr. induction u; cbn [print_uint app parse_uint];
    try (change (digit _) with (Some Decimal.D0) || change (digit _) with (Some Decimal.D1)
         || change (digit _) with (Some Decimal.D2) || change (digit _) with (Some Decimal.D3)
         || change (digit _) with (Some Decimal.D4) || change (digit _) with (Some Decimal.D5)
         || change (digit _) with (Some Decimal.D6) || change (digit _) with (Some Decimal.D7)
         || change (digit _) with (Some Decimal.D8) || change (digit _) with (Some Decimal.D9));
    try (cbv beta iota; rewrite IHu; reflexivity).
  destruct r as [|c r]; [reflexivity|].
  cbn [parse_uint]. rewrite (delimiter_not_digit c Hr). reflexivity.
Qed.

Lemma well_formed_unorm (d : Decimal.uint) : well_formed_uint (Decimal.unorm d) = true.
Proof.
  unfold Decimal.unorm. pose proof (nzhead_nonzero d) as Hnz.
  destruct (Decimal.nzhead d); try reflexivity.
  exfalso. eapply Hnz. reflexivity.
Qed.

Lemma well_formed_to_uint (n : N) : well_formed_uint (N.to_uint n) = true.
Proof.
  rewrite <- (DecimalN.Unsigned.of_to n) at 1.
  rewrite DecimalN.Unsigned.to_of. apply well_formed_unorm.
Qed.

Lemma print_uint_head (u : Decimal.uint) :
  well_formed_uint u = true ->
  exists c t, print_uint u = c :: t /\ (c =? "-")%char = false
              /\ number_start c = true.
Proof. destruct u; intros H; try discriminate; do 2 eexists; repeat split. Qed.

Lemma parse_number_print (n : Z) (r : list ascii) :
  delimited r -> parse_number (print_number n ++ r) = Some (n, r).
Proof.
  intros Hr. unfold print_number.
  pose proof (well_formed_to_uint (Z.abs_N n)) as Hwf.
  destruct (Z.ltb_spec n 0) as [Hneg|Hpos].
  - cbn [app parse_number]. change ("-" =? "-")%char with true. cbv iota.
    rewrite (parse_uint_print _ _ Hr), Hwf, DecimalN.Unsigned.of_to.
    f_equal. f_equal. lia.
  - destruct (print_uint_head _ Hwf) as (c & t & Heq & Hc & _).
    cbn [app]. rewrite Heq. cbn [app parse_number]. rewrite Hc.
    change (c :: t ++ r) with ((c :: t) ++ r). rewrite <- Heq.
    rewrite (parse_uint_print _ _ Hr), Hwf, DecimalN.Unsigned.of_to.
    f_equal. f_equal. lia.
Qed.

Lemma number_start_head (c : ascii) :
  number_start c = true ->
  is_ws c = false /\ (c =? "]")%char = false /\ (c =? "}")%char = false.
Proof. destruct c as [[] [] [] [] [] [] [] []]; cbv; intuition congruence. Qed.

Lemma print_number_head (n : Z) :
  exists c t, print_number n = c :: t /\ number_start c = true.
Proof.
  unfold print_number. destruct (n <? 0).
  - do 2 eexists. split; reflexivity.
  - destruct (print_uint_head _ (well_formed_to_uint (Z.abs_N n)))
      as (c & t & Heq & _ & Hc).
    exists c, t. split; [exact Heq | exact Hc].
Qed.

(** The first character of the text of a value: not white space and not
    a closing bracket. *)
Lemma print_json_head (v : json) :
  exists c t, print_json v = c :: t
              /\ is_ws c = false /\ (c =? "]")%char = false /\ (c =? "}")%char = false.
Proof.
  destruct v as [|[]|n|s|l|o]; try (do 2 eexists; repeat split; reflexivity).
  destruct (print_number_head n) as (c & t & Heq & Hc).
  exists c, t. split; [exact Heq | exact (number_start_head c Hc)].
Qed.

Lemma skip_ws_head (c : ascii) (t : list ascii) :
  is_ws c = false -> skip_ws (c :: t) = c :: t.
Proof. intros H. cbn [skip_ws]. rewrite H. reflexivity. Qed.

Lemma skip_ws_delimited (r : list ascii) : delimited r -> skip_ws r = r.
Proof.
  destruct r as [|c r]; [reflexivity|]. intros H. apply skip_ws_head.
  revert H. destruct c as [[] [] [] [] [] [] [] []]; cbv; congruence.
Qed.

Lemma parse_value_number (fuel : nat) (c : ascii) (t : list ascii) :
  number_start c = true ->
  parse_value (S fuel) (c :: t)
  = match parse_number (c :: t) with
    | Some (n, r') => Some (JNum n, r')
    | None => None
    end.
Proof.
  destruct c as [[] [] [] [] [] [] [] []]; intros H; try discriminate H; reflexivity.
Qed.

Lemma parse_value_string (fuel : nat) (t : list ascii) :
  parse_value (S fuel) (dquote :: t)
  = match parse_chars t with
    | Some (cs, r') => Some (JStr (string_of_list_ascii cs), r')
    | None => None
    end.
Proof. reflexivity. Qed.

Lemma parse_value_array (fuel : nat) (c : ascii) (t : list ascii) :
  is_ws c = false -> (c =? "]")%char = false ->
  parse_value (S fuel) ("["%char :: c :: t)
  = match parse_elems fuel (c :: t) with
    | Some (l, r') => Some (JArr l, r')
    | None => None
    end.
Proof.
  intros Hws Hc. cbn [parse_value]. change (skip_ws ("["%char :: c :: t)) with ("["%char :: c :: t).
  cbv beta iota. change ("[" =? "n")%char with false. change ("[" =? "t")%char with false.
  change ("[" =? "f")%char with false. change ("[" =? dquote)%char with false.
  change ("[" =? "[")%char with true. cbv iota.
  rewrite (skip_ws_head c t Hws), Hc. reflexivity.
Qed.

Lemma parse_value_object (fuel : nat) (t : list ascii) :
  parse_value (S fuel) ("{"%char :: dquote :: t)
  = match parse_members fuel (dquote :: t) with
    | Some (o, r') => Some (JObj o, r')
    | None => None
    end.
Proof. reflexivity. Qed.

Lemma parse_elems_step (fuel : nat) (s : list ascii) :
  parse_elems (S fuel) s
  = match parse_value fuel s with
    | None => None
    | Some (v, r) =>
        match skip_ws r with
        | [] => None
        | c :: r' =>
            if (c =? ",")%char then
              match parse_elems fuel r' with
              | Some (l, r'') => Some (v :: l, r'')
              | None => None
              end
            else if (c =? "]")%char then Some ([v], r')
            else None
        end
    end.
Proof. reflexivity. Qed.

Lemma parse_members_step (fuel : nat) (t : list ascii) :
  parse_members (S fuel) (dquote :: t)
  = match parse_chars t with
    | None => None
    | Some (k, r1) =>
        match skip_ws r1 with
        | [] => None
        | c1 :: r2 =>
            if (c1 =? ":")%char then
              match parse_value fuel r2 with
              | None => None
              | Some (v, r3) =>
                  match skip_ws r3 with
                  | [] => None
                  | c :: r4 =>
                      if (c =? ",")%char then
                        match parse_members fuel r4 with
                        | Some (o, r5) => Some ((string_of_list_ascii k, v) :: o, r5)
                        | None => None
                        end
                      else if (c =? "}")%char
                      then Some ([(string_of_list_ascii k, v)], r4)
                      else None
                  end
              end
            else None
        end
    end.
Proof. reflexivity. Qed.

Lemma print_elems_cons (x : json) (l : list json) (r : list ascii) :
  print_elems print_json (x :: l) ++ "]"%char :: r
  = print_json x
      ++ match l with
         | [] => "]"%char :: r
         | _ :: _ => ","%char :: print_elems print_json l ++ "]"%char :: r
         end.
Proof. cbn [print_elems]. rewrite <- app_assoc. destruct l; reflexivity. Qed.

Lemma print_members_cons (k : string) (x : json) (o : list (string * json))
    (r : list ascii) :
  print_members print_json ((k, x) :: o) ++ "}"%char :: r
  = dquote :: flat_map escape_char (list_ascii_of_string k)
      ++ dquote :: ":"%char :: print_json x
      ++ match o with
         | [] => "}"%char :: r
         | _ :: _ => ","%char :: print_members print_json o ++ "}"%char :: r
         end.
Proof.
  cbn [print_members]. unfold print_string. cbn [app].
  repeat rewrite <- app_assoc. cbn [app]. rewrite <- app_assoc.
  destruct o; reflexivity.
Qed.

Lemma parse_print_fuel (fuel : nat) :
  (forall v r, (size v <= fuel)%nat -> delimited r ->
     parse_value fuel (print_json v ++ r) = Some (v, r))
  /\ (forall x l r, (size_elems size (x :: l) <= fuel)%nat ->
        parse_elems fuel (print_elems print_json (x :: l) ++ "]"%char :: r)
        = Some (x :: l, r))
  /\ (forall k x o r, (size_members size ((k, x) :: o) <= fuel)%nat ->
        parse_members fuel (print_members print_json ((k, x) :: o) ++ "}"%char :: r)
        = Some ((k, x) :: o, r)).
Proof.
  induction fuel as [|fuel (IHv & IHe & IHm)].
  { repeat split.
    - intros v r H. destruct v; cbn in H; lia.
    - intros x l r H. cbn in H. lia.
    - intros k x o r H. cbn in H. lia. }
  repeat split.
  - intros v r Hsz Hr. destruct v as [|[]|n|s|l|o].
    + reflexivity.
    + reflexivity.
    + reflexivity.
    + destruct (print_number_head n) as (c & t & Heq & Hc).
      cbn [print_json]. rewrite Heq. cbn [app].
      rewrite (parse_value_number _ _ _ Hc).
      change (c :: t ++ r) with ((c :: t) ++ r). rewrite <- Heq.
      rewrite (parse_number_print _ _ Hr). reflexivity.
    + destruct (parse_string_print s r) as (t & Heq & Hp).
      cbn [print_json]. rewrite Heq, parse_value_string, Hp.
      rewrite string_of_list_ascii_of_string. reflexivity.
    + cbn [print_json app]. rewrite <- app_assoc. cbn [app].
      destruct l as [|x l]; [reflexivity|].
      rewrite print_elems_cons.
      destruct (print_json_head x) as (c & t & Heq & Hws & Hc & _).
      rewrite Heq. cbn [app]. rewrite (parse_value_array _ _ _ Hws Hc).
      change (c :: t ++ ?u) with ((c :: t) ++ u). rewrite <- Heq.
      rewrite <- print_elems_cons, IHe; [reflexivity|].
      cbn [size] in Hsz. lia.
    + cbn [print_json app]. rewrite <- app_assoc. cbn [app].
      destruct o as [|[k x] o]; [reflexivity|].
      rewrite print_members_cons, parse_value_object.
      rewrite <- print_members_cons, IHm; [reflexivity|].
      cbn [size] in Hsz. lia.
  - intros x l r Hsz.
    rewrite parse_elems_step, print_elems_cons.
    cbn [size_elems] in Hsz.
    rewrite IHv; [|lia|destruct l; reflexivity].
    destruct l as [|y l]; [reflexivity|].
    change (skip_ws (","%char :: ?t)) with (","%char :: t). cbv beta iota.
    change ("," =? ",")%char with true. cbv iota.
    rewrite IHe; [reflexivity|lia].
  - intros k x o r Hsz.
    rewrite print_members_cons, parse_members_step, parse_chars_print.
    change (skip_ws (":"%char :: ?t)) with (":"%char :: t). cbv beta iota.
    change (":" =? ":")%char with true. cbv iota.
    cbn [size_members] in Hsz.
    rewrite IHv; [|lia|destruct o; reflexivity].
    rewrite string_of_list_ascii_of_string.
    destruct o as [|[k' y] o]; [reflexivity|].
    change (skip_ws (","%char :: ?t)) with (","%char :: t). cbv beta iota.
    change ("," =? ",")%char with true. cbv iota.
    rewrite IHm; [reflexivity|lia].
Qed.

Lemma size_le_length_bounded (n : nat) :
  forall v, (size v <= n)%nat -> (size v <= length (print_json v))%nat.
Proof.
  induction n as [|n IH]; intros v Hn.
  { destruct v; cbn in Hn; lia. }
  destruct v as [|[]|k|s|l|o]; try (cbn; lia).
  - destruct (print_number_head k) as (c & t & Heq & _).
    cbn [size print_json]. rewrite Heq. cbn. lia.
  - cbn [size print_json length] in *. rewrite length_app. cbn [length].
    assert (Hl : (size_elems size l <= length (print_elems print_json l) + 1)%nat).
    { assert (Hb : (size_elems size l <= n)%nat) by lia. clear Hn.
      induction l as [|x l IHl]; [cbn; lia|].
      cbn [size_elems print_elems] in *. rewrite length_app.
      pose proof (IH x ltac:(lia)) as Hx.
      destruct l as [|y l]; [cbn in *; lia|].
      specialize (IHl ltac:(lia)). cbn [length]. lia. }
    lia.
  - cbn [size print_json length] in *. rewrite length_app. cbn [length].
    assert (Ho : (size_members size o <= length (print_members print_json o) + 1)%nat).
    { assert (Hb : (size_members size o <= n)%nat) by lia. clear Hn.
      induction o as [|[k x] o IHo]; [cbn; lia|].
      cbn [size_members print_members] in *.
      rewrite length_app. cbn [length]. rewrite length_app.
      pose proof (IH x ltac:(lia)) as Hx.
      destruct o as [|y o]; [cbn in *; lia|].
      specialize (IHo ltac:(lia)). cbn [length]. lia. }
    lia.
Qed.

Lemma size_le_length (v : json) : (size v <= length (print_json v))%nat.
Proof. apply (size_le_length_bounded (size v)). lia. Qed.

(** Parsing the text of a value gives the value back. *)
Lemma parse_json_print (v : json) :
  parse_json (string_of_list_ascii (print_json v)) = Some v.
Proof.
  unfold parse_json. rewrite list_ascii_of_string_of_list_ascii.
  destruct (parse_print_fuel (S (length (print_json v)))) as (Hv & _ & _).
  rewrite <- (app_nil_r (print_json v)) at 2.
  rewrite Hv; [reflexivity| |exact I].
  pose proof (size_le_length v). lia.
Qed.

Lemma as_doc_of_doc (d : doc) : as_doc (of_doc d) = Some d.
Proof.
  cbn [as_doc of_doc]. f_equal.
  rewrite <- (list_to_map_to_list d) at 2. symmetry.
  apply list_to_map_proper.
  - apply NoDup_fst_map_to_list.
  - apply Permutation_rev.
Qed.

Lemma as_docs_of_docs (items : list doc) : as_docs (map of_doc items) = Some items.
Proof.
  induction items as [|d items IH]; [reflexivity|].
  cbn [map as_docs]. rewrite as_doc_of_doc, IH. reflexivity.
Qed.

(** [JSON.parse (JSON.stringify items)] is [items]. *)
Lemma parse_stringify_reference (items : list doc) :
  parse (stringify items) = Collection items.
Proof.
  unfold parse, stringify. rewrite parse_json_print, as_docs_of_docs. reflexivity.
Qed.

Lemma parse_empty_reference : parse "[]" = Collection [].
Proof. reflexivity. Qed.

End JSONTextFacts.

(** ** Properties of the repository *)

Section Basics.
Context `{host : Host}.

Lemma strict_eq_string_true (v : option json) (s : string) :
  strict_eq_string v s = true <-> v = Some (JStr s).
Proof.
  unfold strict_eq_string. destruct v as [[| | |t| |]|]; try (split; congruence).
  rewrite String.eqb_eq. split; congruence.
Qed.

Lemma strict_eq_string_false (v : option json) (s : string) :
  strict_eq_string v s = false <-> v <> Some (JStr s).
Proof.
  rewrite <- strict_eq_string_true. destruct (strict_eq_string v s); split; congruence.
Qed.

Lemma falsy_string_true (s : string) : falsy_string s = true <-> s = "".
Proof. apply String.eqb_eq. Qed.

Lemma falsy_string_false (s : string) : falsy_string s = false <-> s <> "".
Proof. apply String.eqb_neq. Qed.

Lemma read_all (this : Repository) (w : World) (items : list doc) :
  holds this w items -> Repo.read this None w = (Returned items, w).
Proof.
  unfold holds, stored, Repo.read, bind, localStorage_getItem, Repo.parse_items.
  intros ->. reflexivity.
Qed.

Lemma read_query (this : Repository) (q : gmap string string) (w : World)
    (items : list doc) :
  holds this w items ->
  Repo.read this (Some q) w = (Returned (List.filter (Repo.matches q) items), w).
Proof.
  unfold holds, stored, Repo.read, bind, localStorage_getItem, Repo.parse_items.
  intros ->. reflexivity.
Qed.

Lemma read_invalid (this : Repository) (q : option (gmap string string)) (w : World) :
  stored this w = Invalid -> Repo.read this q w = (Threw SyntaxError, w).
Proof.
  unfold stored, Repo.read, bind, localStorage_getItem, Repo.parse_items.
  intros ->. reflexivity.
Qed.

Lemma matches_satisfies (q : gmap string string) (d : doc) :
  Repo.matches q d = true <-> satisfies q d.
Proof.
  unfold Repo.matches, satisfies. rewrite forallb_forall. split.
  - intros H key value Hq.
    apply strict_eq_string_true, (H (key, value)).
    apply list_elem_of_In, elem_of_map_to_list, Hq.
  - intros H [key value] Hin. apply strict_eq_string_true, H.
    apply elem_of_map_to_list, list_elem_of_In, Hin.
Qed.

Lemma select_filter {A : Type} (P : A -> Prop) (f : A -> bool) (l : list A) :
  (forall x, f x = true <-> P x) -> select P l (List.filter f l).
Proof.
  intros Hf. induction l as [|x l IH]; cbn [List.filter]; [constructor|].
  destruct (f x) eqn:E.
  - apply select_keep; [apply Hf, E | exact IH].
  - apply select_drop; [rewrite <- Hf; congruence | exact IH].
Qed.

Lemma select_functional {A : Type} (P : A -> Prop) (l r1 r2 : list A) :
  select P l r1 -> select P l r2 -> r1 = r2.
Proof.
  intros H1. revert r2.
  induction H1; intros r2 H2; inversion H2; subst; try contradiction;
    try reflexivity; [f_equal|]; auto.
Qed.

Lemma filter_all {A : Type} (f : A -> bool) (l : list A) :
  Forall (fun x => f x = true) l -> List.filter f l = l.
Proof.
  induction 1 as [|x l Hx _ IH]; cbn [List.filter]; [reflexivity|].
  rewrite Hx, IH. reflexivity.
Qed.

Lemma filter_length_lt {A : Type} (f : A -> bool) (l : list A) :
  Exists (fun x => f x = false) l -> (length (List.filter f l) < length l)%nat.
Proof.
  induction 1 as [x l Hx|x l _ IH]; cbn [List.filter length].
  - rewrite Hx. pose proof (List.filter_length_le f l). lia.
  - destruct (f x); cbn [length]; lia.
Qed.

Lemma findIndex_from_none {A : Type} (p : A -> bool) (l : list A) (i : Z) :
  Forall (fun x => p x = false) l -> findIndex_from p l i = -1.
Proof.
  intros H. revert i. induction H as [|x l Hx _ IH]; intros i; cbn [findIndex_from].
  - reflexivity.
  - rewrite Hx. apply IH.
Qed.

Lemma findIndex_from_first {A : Type} (p : A -> bool) (l1 l2 : list A) (x : A) (i : Z) :
  Forall (fun y => p y = false) l1 -> p x = true ->
  findIndex_from p (l1 ++ x :: l2) i = i + Z.of_nat (length l1).
Proof.
  intros H Hx. revert i. induction H as [|y l1 Hy _ IH]; intros i;
    cbn [findIndex_from app length].
  - rewrite Hx. lia.
  - rewrite Hy, IH. lia.
Qed.

Lemma alter_middle {A : Type} (f : A -> A) (l1 l2 : list A) (x : A) :
  alter f (length l1) (l1 ++ x :: l2) = l1 ++ f x :: l2.
Proof. induction l1 as [|y l1 IH]; cbn; [reflexivity|]. f_equal. exact IH. Qed.

End Basics.

Section Reads.
Context `{host : Host}.

Lemma update_empty_id (this : Repository) (partial : doc) (w : World) :
  Repo.update this "" partial w = (Returned 0, w).
Proof. reflexivity. Qed.

(** C6. read(filter) returns exactly the stored documents that hold, at
    every key of the filter, the string the filter gives there (all
    conditions conjoined), in stored order; read() without a filter
    returns all of them; the world, and so the store, is left as it was. *)
Theorem read_filter_exact (this : Repository) (q : gmap string string)
    (w : World) (items : list doc) :
  holds this w items ->
  Repo.read this None w = (Returned items, w)
  /\ exists res, Repo.read this (Some q) w = (Returned res, w)
                 /\ select (satisfies q) items res.
Proof.
  intros H. split; [exact (read_all this w items H)|].
  exists (List.filter (Repo.matches q) items). split.
  - exact (read_query this q w items H).
  - apply select_filter, matches_satisfies.
Qed.

(** C2. update(id, partial) with an empty id, or with an id that no
    stored document carries, returns 0 and leaves the world as it was:
    nothing is written, the stored text is the same text. *)
Theorem update_absent_noop (this : Repository) (id : string) (partial : doc)
    (w : World) (items : list doc) :
  id = "" \/ (holds this w items /\ Forall (fun d => ~ has_id id d) items) ->
  Repo.update this id partial w = (Returned 0, w).
Proof.
  unfold Repo.update. intros [->|[H Habs]]; [reflexivity|].
  destruct (falsy_string id); [reflexivity|].
  unfold bind. rewrite (read_all this w items H).
  unfold findIndex. rewrite findIndex_from_none; [reflexivity|].
  eapply Forall_impl; [exact Habs|]. cbv beta.
  intros d Hd. apply strict_eq_string_false, Hd.
Qed.

(** C9. deleteMany(ids) with a non-empty sequence of ids, none of them
    the [_id] of a stored document, returns 0 and leaves the world as it
    was: nothing is written. *)
Theorem deleteMany_absent_noop (this : Repository) (ids : list string)
    (w : World) (items : list doc) :
  ids <> [] ->
  holds this w items ->
  Forall (fun d => Forall (fun id => ~ has_id id d) ids) items ->
  Repo.deleteMany this ids w = (Returned 0, w).
Proof.
  intros Hne H Habs. unfold Repo.deleteMany.
  destruct ids as [|i ids]; [contradiction|]. cbn [length].
  destruct (Z.eqb_spec (Z.of_nat (S (length ids))) 0) as [E|_]; [lia|].
  unfold bind. rewrite (read_all this w items H).
  rewrite filter_all.
  - rewrite Z.sub_diag. reflexivity.
  - eapply Forall_impl; [exact Habs|]. cbv beta. intros d Hd.
    apply negb_true_iff. unfold Repo.includes.
    destruct (existsb _ _) eqn:E; [|reflexivity].
    apply existsb_exists in E as (j & Hin & Hj).
    rewrite Forall_forall in Hd. apply list_elem_of_In in Hin.
    destruct (Hd j Hin). apply strict_eq_string_true, Hj.
Qed.

Lemma updateMany_loop_sum (this : Repository) (docs : list UpdateManyDoc)
    (count : Z) (w : World) :
  Repo.updateMany_loop this docs count w
  = match mapM (fun d => Repo.update this (umd_id d) (delete "_id" (umd_fields d)))
                docs w with
    | (Returned results, w') => (Returned (count + foldr Z.add 0 results), w')
    | (Threw e, w') => (Threw e, w')
    end.
Proof.
  revert count w. induction docs as [|d docs IH]; intros count w;
    cbn [Repo.updateMany_loop mapM].
  - unfold ret. cbn [foldr]. rewrite Z.add_0_r. reflexivity.
  - unfold bind at 1 2.
    destruct (Repo.update this (umd_id d) (delete "_id" (umd_fields d)) w)
      as [[n|e] w1]; [|reflexivity].
    rewrite IH. unfold bind.
    destruct (mapM _ docs w1) as [[rs|e] w2]; [|reflexivity].
    unfold ret. cbn [foldr]. rewrite Z.add_assoc. reflexivity.
Qed.

(** C7. updateMany runs update once per entry, in input order, and
    returns the sum of what the calls returned; a throw of one call ends
    it with the writes made so far; for the empty sequence it returns 0
    and leaves the world as it was. *)
Theorem updateMany_sum (this : Repository) (docs : list UpdateManyDoc) (w : World) :
  Repo.updateMany this docs w = updateMany_spec this docs w
  /\ Repo.updateMany this [] w = (Returned 0, w).
Proof.
  split; [|reflexivity].
  unfold Repo.updateMany, updateMany_spec.
  destruct docs as [|d docs]; [reflexivity|].
  destruct (Z.eqb_spec (Z.of_nat (length (d :: docs))) 0) as [E|_];
    [cbn [length] in E; lia|].
  rewrite updateMany_loop_sum. unfold bind.
  destruct (mapM _ (d :: docs) w) as [[rs|e] w']; reflexivity.
Qed.

Lemma stored_text (this : Repository) (w : World) (text : string) :
  storage w !! collection this = Some text -> text <> "" ->
  stored this w = JSON_parse text.
Proof.
  intros Hs Hne. unfold stored, Repo.or_empty_array. rewrite Hs.
  apply falsy_string_false in Hne. rewrite Hne. reflexivity.
Qed.

(** C8, as the code has it. When the stored text is not empty and not
    valid JSON, read and create throw; update and delete throw for a
    non-empty id, updateMany when some entry has a non-empty [_id],
    deleteMany for a non-empty sequence of ids; in each case the world is
    left as it was, so nothing is written. *)
Theorem corrupt_store_aborts (this : Repository) (w : World) (text : string) :
  storage w !! collection this = Some text ->
  text <> "" ->
  JSON_parse text = Invalid ->
  (forall q, Repo.read this q w = (Threw SyntaxError, w))
  /\ (forall newDocs, Repo.create this newDocs w = (Threw SyntaxError, w))
  /\ (forall id partial, id <> "" ->
        Repo.update this id partial w = (Threw SyntaxError, w))
  /\ (forall docs, Exists (fun d => umd_id d <> "") docs ->
        Repo.updateMany this docs w = (Threw SyntaxError, w))
  /\ (forall id, id <> "" -> Repo.delete this id w = (Threw SyntaxError, w))
  /\ (forall ids, ids <> [] -> Repo.deleteMany this ids w = (Threw SyntaxError, w)).
Proof.
  intros Hs Hne Hbad.
  assert (Hread : forall q, Repo.read this q w = (Threw SyntaxError, w)).
  { intros q. apply read_invalid. rewrite (stored_text this w text Hs Hne). exact Hbad. }
  assert (Hupd : forall id partial, id <> "" ->
            Repo.update this id partial w = (Threw SyntaxError, w)).
  { intros id partial Hid. unfold Repo.update.
    apply falsy_string_false in Hid. rewrite Hid.
    unfold bind. rewrite Hread. reflexivity. }
  repeat split.
  - exact Hread.
  - intros newDocs. unfold Repo.create, bind. rewrite Hread. reflexivity.
  - exact Hupd.
  - intros docs Hex. unfold Repo.updateMany.
    destruct docs as [|d0 docs0]; [inversion Hex|].
    destruct (Z.eqb_spec (Z.of_nat (length (d0 :: docs0))) 0) as [E|_];
      [cbn [length] in E; lia|].
    generalize 0 as count. revert Hex. generalize (d0 :: docs0) as docs.
    clear d0 docs0. intros docs Hex.
    induction Hex as [d docs Hd|d docs _ IH]; intros count;
      cbn [Repo.updateMany_loop]; unfold bind at 1.
    + rewrite (Hupd _ _ Hd). reflexivity.
    + destruct (String.eqb_spec (umd_id d) "") as [E|E].
      * rewrite E, update_empty_id. apply IH.
      * rewrite (Hupd _ _ E). reflexivity.
  - intros id Hid. unfold Repo.delete.
    apply falsy_string_false in Hid. rewrite Hid.
    unfold bind. rewrite Hread. reflexivity.
  - intros ids Hids. unfold Repo.deleteMany.
    destruct ids as [|i ids]; [contradiction|].
    destruct (Z.eqb_spec (Z.of_nat (length (i :: ids))) 0) as [E|_];
      [cbn [length] in E; lia|].
    unfold bind. rewrite Hread. reflexivity.
Qed.

End Reads.

Section Writes.
Context `{host : Host} {laws : HostLaws host}.

Lemma stringify_nonempty (items : list doc) : JSON_stringify items <> "".
Proof.
  intros E. pose proof (parse_stringify items) as H.
  rewrite E, parse_empty_text in H. discriminate H.
Qed.

Lemma holds_after_set (this : Repository) (w : World) (items : list doc) :
  holds this (snd (localStorage_setItem (collection this) (JSON_stringify items) w))
        items.
Proof.
  unfold holds, stored, Repo.or_empty_array. cbn [snd localStorage_setItem storage].
  rewrite lookup_insert_eq.
  pose proof (stringify_nonempty items) as Hne.
  apply falsy_string_false in Hne. rewrite Hne. apply parse_stringify.
Qed.

Lemma holds_absent (this : Repository) (w : World) :
  storage w !! collection this = None -> holds this w [].
Proof.
  intros H. unfold holds, stored. rewrite H. apply parse_empty_array.
Qed.

(** C10. create([]) returns the empty sequence and writes: the trace
    gains one [SetItem] of the collection key with the serialization of
    the documents read, and the collection holds the same documents
    afterwards. *)
Theorem create_empty_writes (this : Repository) (w : World) (items : list doc) :
  holds this w items ->
  exists w', Repo.create this (Many []) w = (Returned [], w')
    /\ trace w' = trace w ++ [SetItem (collection this) (JSON_stringify items)]
    /\ storage w' = <[collection this := JSON_stringify items]> (storage w)
    /\ holds this w' items.
Proof.
  intros H. eexists. unfold Repo.create, bind.
  rewrite (read_all this w items H). cbn [as_array forEach mapM ret].
  rewrite app_nil_r. split; [reflexivity|]. cbn [trace storage localStorage_setItem].
  split; [reflexivity|]. split; [reflexivity|].
  apply (holds_after_set this w items).
Qed.

Lemma all_or_some {A : Type} (f : A -> bool) (l : list A) :
  Forall (fun x => f x = true) l \/ Exists (fun x => f x = false) l.
Proof.
  induction l as [|x l [IH|IH]].
  - left. constructor.
  - destruct (f x) eqn:E; [left; constructor; assumption|right; left; exact E].
  - right. right. exact IH.
Qed.

Lemma differs_true (id : string) (d : doc) :
  negb (strict_eq_string (d !! "_id") id) = true <-> ~ has_id id d.
Proof. rewrite negb_true_iff. apply strict_eq_string_false. Qed.

Lemma differs_false (id : string) (d : doc) :
  negb (strict_eq_string (d !! "_id") id) = false <-> has_id id d.
Proof. rewrite negb_false_iff. apply strict_eq_string_true. Qed.

Lemma filter_drop_one {A : Type} (f : A -> bool) (l1 l2 : list A) (x : A) :
  f x = false -> Forall (fun y => f y = true) (l1 ++ l2) ->
  List.filter f (l1 ++ x :: l2) = l1 ++ l2.
Proof.
  intros Hx Hall. apply Forall_app in Hall as [H1 H2].
  rewrite List.filter_app. cbn [List.filter]. rewrite Hx.
  rewrite (filter_all f l1 H1), (filter_all f l2 H2). reflexivity.
Qed.

(** C4, as the code has it. delete(id) returns 0 or 1, and 1 exactly
    when the id is not empty and some stored document carries it; with 0
    the world is left as it was; with 1 every document carrying the id is
    gone: read() then returns the other documents in stored order, none
    with that [_id], and when just one document carried the id it is the
    one document removed; delete with the same id again returns 0 and
    writes nothing. *)
Theorem delete_flag (this : Repository) (id : string) (w : World) (items : list doc) :
  holds this w items ->
  exists n w' rest,
    Repo.delete this id w = (Returned n, w')
    /\ (n = 0 \/ n = 1)
    /\ (n = 1 <-> id <> "" /\ Exists (has_id id) items)
    /\ (n = 0 -> w' = w)
    /\ Repo.read this None w' = (Returned rest, w')
    /\ (n = 0 -> rest = items)
    /\ (n = 1 -> select (fun d => ~ has_id id d) items rest
                 /\ Forall (fun d => ~ has_id id d) rest)
    /\ (forall l1 d l2,
          id <> "" -> items = l1 ++ d :: l2 -> has_id id d ->
          Forall (fun x => ~ has_id id x) (l1 ++ l2) ->
          n = 1 /\ rest = l1 ++ l2)
    /\ Repo.delete this id w' = (Returned 0, w').
Proof.
  intros H. unfold Repo.delete.
  destruct (falsy_string id) eqn:Eid.
  { exists 0, w, items. apply falsy_string_true in Eid.
    split; [reflexivity|]. split; [auto|]. split.
    { split; [discriminate|]. intros [Hne _]. contradiction. }
    split; [reflexivity|]. split; [exact (read_all this w items H)|].
    split; [reflexivity|]. split; [discriminate|]. split; [|reflexivity].
    intros l1 d l2 Hne. contradiction. }
  apply falsy_string_false in Eid.
  unfold bind at 1. rewrite (read_all this w items H). cbv zeta.
  set (keep := fun item : doc => negb (strict_eq_string (item !! "_id") id)).
  destruct (all_or_some keep items) as [Hall|Hsome].
  - rewrite (filter_all keep items Hall), (Z.eqb_refl (Z.of_nat (length items))).
    assert (Hnone : ~ Exists (has_id id) items).
    { intros Hex. apply Exists_exists in Hex as (d & Hin & Hd).
      rewrite Forall_forall in Hall. specialize (Hall d Hin).
      apply differs_true in Hall. contradiction. }
    exists 0, w, items.
    split; [reflexivity|]. split; [auto|]. split.
    { split; [discriminate|]. intros [_ Hex]. contradiction. }
    split; [reflexivity|]. split; [exact (read_all this w items H)|].
    split; [reflexivity|]. split; [discriminate|]. split.
    + intros l1 d l2 _ -> Hd _. exfalso. apply Hnone.
      apply Exists_app. right. left. exact Hd.
    + unfold bind. rewrite (read_all this w items H). cbv zeta.
      rewrite (filter_all keep items Hall), (Z.eqb_refl (Z.of_nat (length items))).
      reflexivity.
  - pose proof (filter_length_lt keep items Hsome) as Hlt.
    destruct (Z.eqb_spec (Z.of_nat (length items))
                (Z.of_nat (length (List.filter keep items)))) as [E|_]; [lia|].
    unfold bind at 1. cbn [localStorage_setItem ret].
    set (w' := {| storage := _ |}).
    assert (Hw' : holds this w' (List.filter keep items))
      by apply (holds_after_set this w).
    assert (Hrest : Forall (fun d => ~ has_id id d) (List.filter keep items)).
    { apply Forall_forall. intros d Hin.
      apply list_elem_of_In, List.filter_In in Hin as [_ Hd].
      apply differs_true, Hd. }
    exists 1, w', (List.filter keep items).
    split; [reflexivity|]. split; [auto|]. split.
    { split; [|reflexivity]. intros _. split; [exact Eid|].
      apply Exists_exists in Hsome as (d & Hin & Hd).
      apply Exists_exists. exists d. split; [exact Hin|]. apply differs_false, Hd. }
    split; [discriminate|]. split; [exact (read_all this w' _ Hw')|].
    split; [discriminate|]. split.
    { intros _. split; [|exact Hrest].
      apply select_filter. intros d. apply differs_true. }
    split.
    + intros l1 d l2 _ -> Hd Hothers. split; [reflexivity|].
      apply filter_drop_one; [apply differs_false, Hd|].
      eapply Forall_impl; [exact Hothers|]. intros x. apply differs_true.
    + unfold bind. rewrite (read_all this w' _ Hw'). cbv zeta.
      rewrite (filter_all keep (List.filter keep items));
        [rewrite Z.eqb_refl; reflexivity|].
      eapply Forall_impl; [exact Hrest|]. intros d. apply differs_true.
Qed.

(** C5, as the code has it. For a non-empty id, update(id, partial)
    changes the first stored document that carries the id and no other:
    it returns 1, and read() then returns the same sequence with that
    document replaced by one whose [_id] is still id (whatever [_id] the
    partial gives), whose other fields present in the partial have the
    partial's values, and whose fields absent from the partial are as
    stored. *)
Theorem update_first_match (this : Repository) (id : string) (partial : doc)
    (w : World) (l1 l2 : list doc) (d : doc) :
  id <> "" ->
  holds this w (l1 ++ d :: l2) ->
  Forall (fun x => ~ has_id id x) l1 ->
  has_id id d ->
  exists w' d', Repo.update this id partial w = (Returned 1, w')
    /\ Repo.read this None w' = (Returned (l1 ++ d' :: l2), w')
    /\ has_id id d'
    /\ (forall k, k <> "_id" -> is_Some (partial !! k) -> d' !! k = partial !! k)
    /\ (forall k, partial !! k = None -> d' !! k = d !! k).
Proof.
  intros Hid H Hl1 Hd. unfold Repo.update.
  apply falsy_string_false in Hid. rewrite Hid.
  unfold bind at 1. rewrite (read_all this w _ H). cbv zeta.
  unfold findIndex. rewrite findIndex_from_first.
  2:{ eapply Forall_impl; [exact Hl1|]. intros x Hx.
      apply strict_eq_string_false, Hx. }
  2:{ apply strict_eq_string_true, Hd. }
  destruct (Z.eqb_spec (0 + Z.of_nat (length l1)) (-1)) as [E|_]; [lia|].
  replace (Z.to_nat (0 + Z.of_nat (length l1))) with (length l1) by lia.
  rewrite alter_middle.
  set (d' := spread d (delete "_id" partial)).
  assert (Hres : exists w', (let* _ := (if verbose this
                   then console_warn ("Trying to update item _id: " +:+ id +:+ " with")
                          (partial !! "_id")
                   else ret tt) in
                 let* _ := localStorage_setItem (collection this)
                             (JSON_stringify (l1 ++ d' :: l2)) in
                 ret 1) w = (Returned 1, w') /\ holds this w' (l1 ++ d' :: l2)).
  { destruct (verbose this); eexists; (split; [reflexivity|]);
      cbn [console_warn ret]; apply holds_after_set. }
  destruct Hres as (w' & Hrun & Hw').
  exists w', d'. split; [exact Hrun|]. split; [apply (read_all this w' _ Hw')|].
  unfold d', spread, has_id in *. repeat split.
  - rewrite lookup_union_r; [exact Hd|]. apply lookup_delete_eq.
  - intros k Hk [v Hv]. rewrite Hv. apply lookup_union_Some_l.
    rewrite lookup_delete_ne; [exact Hv|congruence].
  - intros k Hk. apply lookup_union_r.
    destruct (decide ("_id" = k)) as [<-|Hne];
      [apply lookup_delete_eq|rewrite lookup_delete_ne; assumption].
Qed.

Lemma with_id_refl (o : doc) : falsy (o !! "_id") = false -> with_id o o.
Proof. unfold with_id. intros ->. reflexivity. Qed.

Lemma with_id_truthy (o o' : doc) : with_id o o' -> falsy (o' !! "_id") = false.
Proof.
  unfold with_id. destruct (falsy (o !! "_id")) eqn:E.
  - intros [n ->]. rewrite lookup_insert_eq. cbn [falsy].
    apply String.eqb_neq, uuid_nonempty.
  - intros ->. exact E.
Qed.

Lemma with_id_fields (o o' : doc) (k : string) :
  with_id o o' -> k <> "_id" -> o' !! k = o !! k.
Proof.
  unfold with_id. destruct (falsy (o !! "_id")).
  - intros [n ->] Hk. apply lookup_insert_ne. congruence.
  - intros -> _. reflexivity.
Qed.

Lemma ensure_id_run (r : loc) (o : doc) (w : World) :
  heap w !! r = Some o ->
  exists w' o', Repo.ensure_id r w = (Returned tt, w')
    /\ storage w' = storage w /\ trace w' = trace w
    /\ heap w' = <[r := o']> (heap w) /\ with_id o o'.
Proof.
  intros Hr. unfold Repo.ensure_id, bind, deref. rewrite Hr.
  destruct (falsy (o !! "_id")) eqn:E.
  - eexists _, (<["_id" := JStr (uuidv4 (drawn w))]> o).
    cbn [Repo.fresh_uuid assign storage trace heap]. repeat split.
    unfold with_id. rewrite E. eexists. reflexivity.
  - exists w, o. repeat split.
    + symmetry. apply insert_id, Hr.
    + apply with_id_refl, E.
Qed.

Lemma forEach_ensure_id (ds : list loc) (w : World) :
  Forall (fun r => is_Some (heap w !! r)) ds ->
  exists w', forEach ds Repo.ensure_id w = (Returned tt, w') /\ ids_ensured ds w w'.
Proof.
  revert w. induction ds as [|r0 ds IH]; intros w Hall.
  { exists w. split; [reflexivity|]. split; [reflexivity|]. split; [reflexivity|].
    intros r o Hr. exists o. split; [exact Hr|].
    split; [intros Hin; apply elem_of_nil in Hin; contradiction|auto]. }
  apply Forall_cons in Hall as [[o0 Hr0] Hall].
  destruct (ensure_id_run r0 o0 w Hr0) as (w1 & o1 & Hrun & Hs1 & Ht1 & Hh1 & Hid1).
  destruct (IH w1) as (w' & Hloop & Hs' & Ht' & Hh').
  { eapply Forall_impl; [exact Hall|]. intros r [o Hr]. rewrite Hh1.
    destruct (decide (r0 = r)) as [<-|Hne].
    - rewrite lookup_insert_eq. eauto.
    - rewrite lookup_insert_ne by exact Hne. eauto. }
  exists w'. cbn [forEach]. unfold bind. rewrite Hrun. split; [exact Hloop|].
  split; [congruence|]. split; [congruence|].
  intros r o Hr. destruct (decide (r0 = r)) as [<-|Hne].
  - destruct (Hh' r0 o1) as (o' & Ho' & Hin & Hout).
    { rewrite Hh1. apply lookup_insert_eq. }
    exists o'. split; [exact Ho'|]. split.
    + intros _. replace o0 with o in * by congruence.
      destruct (decide (r0 ∈ ds)) as [Hd|Hd].
      * specialize (Hin Hd). unfold with_id in Hin.
        rewrite (with_id_truthy o o1 Hid1) in Hin. subst o'. exact Hid1.
      * rewrite (Hout Hd). exact Hid1.
    + intros Hnot. exfalso. apply Hnot. left.
  - destruct (Hh' r o) as (o' & Ho' & Hin & Hout).
    { rewrite Hh1, lookup_insert_ne by exact Hne. exact Hr. }
    exists o'. split; [exact Ho'|]. split.
    + intros Hel. apply elem_of_cons in Hel as [->|Hel]; [contradiction|]. auto.
    + intros Hnot. apply Hout. intros Hel. apply Hnot. right. exact Hel.
Qed.

Lemma mapM_deref (ds : list loc) (w : World) :
  Forall (fun r => is_Some (heap w !! r)) ds ->
  exists objs, mapM deref ds w = (Returned objs, w)
               /\ Forall2 (fun r o => heap w !! r = Some o) ds objs.
Proof.
  induction 1 as [|r ds [o Hr] _ (objs & Hrun & Hobjs)].
  - exists []. split; [reflexivity|constructor].
  - exists (o :: objs). cbn [mapM]. unfold bind, deref at 1. rewrite Hr, Hrun.
    split; [reflexivity|]. constructor; assumption.
Qed.

(** create, on a collection that holds [items], given objects that all
    exist: it returns the array it was given, the objects of that array
    have their identifiers populated, and the collection then holds
    [items] followed by those objects. *)
Lemma create_run (this : Repository) (newDocs : NewDocs) (w : World)
    (items : list doc) :
  holds this w items ->
  Forall (fun r => is_Some (heap w !! r)) (as_array newDocs) ->
  exists w' objs,
    Repo.create this newDocs w = (Returned (as_array newDocs), w')
    /\ Forall2 (fun r o => heap w' !! r = Some o) (as_array newDocs) objs
    /\ (forall r o, heap w !! r = Some o ->
          exists o', heap w' !! r = Some o'
                     /\ (r ∈ as_array newDocs -> with_id o o')
                     /\ (r ∉ as_array newDocs -> o' = o))
    /\ holds this w' (items ++ objs)
    /\ trace w' = trace w ++ [SetItem (collection this) (JSON_stringify (items ++ objs))].
Proof.
  intros H Hall. unfold Repo.create. unfold bind at 1.
  rewrite (read_all this w items H). cbv zeta.
  destruct (forEach_ensure_id _ w Hall) as (w1 & Hloop & Hs1 & Ht1 & Hh1).
  unfold bind at 1. rewrite Hloop.
  destruct (mapM_deref (as_array newDocs) w1) as (objs & Hmap & Hobjs).
  { eapply Forall_impl; [exact Hall|]. intros r [o Hr].
    destruct (Hh1 r o Hr) as (o' & Ho' & _). eauto. }
  unfold bind at 1. rewrite Hmap. unfold bind.
  cbn [localStorage_setItem ret].
  eexists _, objs. split; [reflexivity|]. cbn [heap trace].
  split; [exact Hobjs|]. split; [exact Hh1|]. split.
  - apply (holds_after_set this w1).
  - rewrite Ht1. reflexivity.
Qed.

(** C1. create([a, b]) returns the two objects with their identifiers
    populated (an object whose [_id] was truthy is as it was, the others
    differ from what was passed in [_id] only), and read() then returns
    the documents held before followed by these two, in that order. *)
Theorem create_then_read (this : Repository) (w : World) (pre : list doc)
    (ra rb : loc) (a b : doc) :
  holds this w pre ->
  heap w !! ra = Some a ->
  heap w !! rb = Some b ->
  exists w' a' b',
    Repo.create this (Many [ra; rb]) w = (Returned [ra; rb], w')
    /\ heap w' !! ra = Some a' /\ heap w' !! rb = Some b'
    /\ with_id a a' /\ with_id b b'
    /\ falsy (a' !! "_id") = false /\ falsy (b' !! "_id") = false
    /\ (forall k, k <> "_id" -> a' !! k = a !! k /\ b' !! k = b !! k)
    /\ Repo.read this None w' = (Returned (pre ++ [a'; b']), w').
Proof.
  intros H Ha Hb.
  destruct (create_run this (Many [ra; rb]) w pre H)
    as (w' & objs & Hrun & Hobjs & Hheap & Hw' & _).
  { cbn [as_array]. repeat constructor; eauto. }
  cbn [as_array] in *.
  apply Forall2_cons_inv_l in Hobjs as (a' & objs1 & Ha' & Hobjs & ->).
  apply Forall2_cons_inv_l in Hobjs as (b' & objs2 & Hb' & Hobjs & ->).
  apply Forall2_nil_inv_l in Hobjs as ->.
  destruct (Hheap ra a Ha) as (a1 & Ha1 & Hida & _).
  destruct (Hheap rb b Hb) as (b1 & Hb1 & Hidb & _).
  replace a1 with a' in * by congruence. replace b1 with b' in * by congruence.
  assert (Hwa : with_id a a') by (apply Hida; set_solver).
  assert (Hwb : with_id b b') by (apply Hidb; set_solver).
  exists w', a', b'. repeat split; try assumption.
  - exact (with_id_truthy a a' Hwa).
  - exact (with_id_truthy b b' Hwb).
  - apply with_id_fields; assumption.
  - apply with_id_fields; assumption.
  - apply (read_all this w' _ Hw').
Qed.

(** C3, as the code has it. A document given to create with a non-empty
    string as [_id] is left as it is, identifier included: the object
    returned for it and the document stored for it are the one that was
    passed. *)
Theorem create_keeps_given_id (this : Repository) (newDocs : NewDocs) (w : World)
    (items : list doc) (r : loc) (o : doc) (s : string) :
  holds this w items ->
  Forall (fun r => is_Some (heap w !! r)) (as_array newDocs) ->
  r ∈ as_array newDocs ->
  heap w !! r = Some o ->
  o !! "_id" = Some (JStr s) ->
  s <> "" ->
  exists w' objs,
    Repo.create this newDocs w = (Returned (as_array newDocs), w')
    /\ heap w' !! r = Some o
    /\ Forall2 (fun r o => heap w' !! r = Some o) (as_array newDocs) objs
    /\ Repo.read this None w' = (Returned (items ++ objs), w').
Proof.
  intros H Hall Hin Hr Hid Hs.
  destruct (create_run this newDocs w items H Hall)
    as (w' & objs & Hrun & Hobjs & Hheap & Hw' & _).
  exists w', objs. split; [exact Hrun|]. split.
  - destruct (Hheap r o Hr) as (o' & Ho' & Hwith & _).
    specialize (Hwith Hin). unfold with_id in Hwith. rewrite Hid in Hwith.
    cbn [falsy] in Hwith. apply String.eqb_neq in Hs. rewrite Hs in Hwith.
    congruence.
  - split; [exact Hobjs|]. apply (read_all this w' _ Hw').
Qed.

End Writes.

(** ** Further properties: what a call touches *)

Section Confinement.
Context `{host : Host}.
























End Confinement.

(** ** Further properties: reading *)

Section Reading.
Context `{host : Host} {laws : HostLaws host}.


Lemma satisfies_union (q1 q2 : gmap string string) (d : doc) :
  q1 ##ₘ q2 -> satisfies (q1 ∪ q2) d <-> satisfies q1 d /\ satisfies q2 d.
Proof.
  intros Hdisj. unfold satisfies. split.
  - intros H. split; intros key value Hq; apply H.
    + apply lookup_union_Some_l, Hq.
    + apply lookup_union_Some_r; assumption.
  - intros [H1 H2] key value Hq.
    apply lookup_union_Some in Hq as [Hq|Hq]; [apply H1|apply H2|]; assumption.
Qed.

Lemma matches_union (q1 q2 : gmap string string) (d : doc) :
  q1 ##ₘ q2 -> Repo.matches (q1 ∪ q2) d = Repo.matches q1 d && Repo.matches q2 d.
Proof.
  intros Hdisj. apply eq_true_iff_eq.
  rewrite andb_true_iff, !matches_satisfies. apply satisfies_union, Hdisj.
Qed.

Lemma filter_twice {A : Type} (f g : A -> bool) (l : list A) :
  List.filter g (List.filter f l) = List.filter (fun x => f x && g x) l.
Proof.
  induction l as [|x l IH]; [reflexivity|]. cbn [List.filter].
  destruct (f x); cbn [List.filter andb]; [destruct (g x)|]; rewrite IH; reflexivity.
Qed.

Lemma filter_same {A : Type} (f g : A -> bool) (l : list A) :
  (forall x, f x = g x) -> List.filter f l = List.filter g l.
Proof.
  intros H. induction l as [|x l IH]; [reflexivity|]. cbn [List.filter].
  rewrite H, IH. reflexivity.
Qed.

(** X3. A collection whose key is absent from the store, or holds the
    empty string, is the empty collection: read returns no document for
    every filter, update, delete and deleteMany return 0, and none of
    them changes the world. *)
Theorem absent_collection_is_empty (this : Repository) (w : World) :
  storage w !! collection this = None \/ storage w !! collection this = Some "" ->
  (forall q, Repo.read this q w = (Returned [], w))
  /\ (forall id partial, Repo.update this id partial w = (Returned 0, w))
  /\ (forall id, Repo.delete this id w = (Returned 0, w))
  /\ (forall ids, Repo.deleteMany this ids w = (Returned 0, w)).
Proof.
  intros Habs.
  assert (H : holds this w []).
  { unfold holds, stored. destruct Habs as [-> | ->]; apply parse_empty_array. }
  split; [|split; [|split]].
  - intros [q|]; [rewrite (read_query this q w [] H)|rewrite (read_all this w [] H)];
      reflexivity.
  - intros id partial. unfold Repo.update.
    destruct (falsy_string id); [reflexivity|].
    unfold bind. rewrite (read_all this w [] H). reflexivity.
  - intros id. unfold Repo.delete.
    destruct (falsy_string id); [reflexivity|].
    unfold bind. rewrite (read_all this w [] H). reflexivity.
  - intros ids. unfold Repo.deleteMany.
    destruct (Z.of_nat (length ids) =? 0); [reflexivity|].
    unfold bind. rewrite (read_all this w [] H). reflexivity.
Qed.


(** X5. Filters conjoin: for two filters over different keys, read with
    both is read with the first, narrowed by the second; its documents
    are the documents of the first result that satisfy the second
    filter. *)
Theorem read_filters_conjoin (this : Repository) (q1 q2 : gmap string string)
    (w : World) (items : list doc) :
  holds this w items ->
  q1 ##ₘ q2 ->
  exists r1 r12,
    Repo.read this (Some q1) w = (Returned r1, w)
    /\ Repo.read this (Some (q1 ∪ q2)) w = (Returned r12, w)
    /\ r12 = List.filter (Repo.matches q2) r1
    /\ select (satisfies q2) r1 r12.
Proof.
  intros H Hdisj.
  exists (List.filter (Repo.matches q1) items),
         (List.filter (Repo.matches (q1 ∪ q2)) items).
  split; [exact (read_query this q1 w items H)|].
  split; [exact (read_query this (q1 ∪ q2) w items H)|].
  assert (E : List.filter (Repo.matches (q1 ∪ q2)) items
              = List.filter (Repo.matches q2) (List.filter (Repo.matches q1) items)).
  { rewrite filter_twice. apply filter_same. intros d. apply matches_union, Hdisj. }
  split; [exact E|]. rewrite E. apply select_filter, matches_satisfies.
Qed.

End Reading.

(** ** Further properties: update and updateMany *)

Section Updating.
Context `{host : Host} {laws : HostLaws host}.

Lemma holds_persisted (this : Repository) (items : list doc) (w : World) :
  holds this (persisted this items w) items.
Proof. apply holds_after_set. Qed.

Lemma first_match_split {A : Type} (p : A -> bool) (l : list A) :
  Forall (fun x => p x = false) l
  \/ exists l1 x l2, l = l1 ++ x :: l2 /\ Forall (fun y => p y = false) l1 /\ p x = true.
Proof.
  induction l as [|x l [IH|(l1 & y & l2 & -> & H1 & Hy)]].
  - left. constructor.
  - destruct (p x) eqn:E.
    + right. exists [], x, l. repeat split; [constructor|exact E].
    + left. constructor; assumption.
  - destruct (p x) eqn:E.
    + right. exists [], x, (l1 ++ y :: l2). repeat split; [constructor|exact E].
    + right. exists (x :: l1), y, l2. repeat split; [constructor; assumption|exact Hy].
Qed.

Lemma names_stored_true (items : list doc) (id : string) :
  names_stored items id = true <-> id <> "" /\ Exists (has_id id) items.
Proof.
  unfold names_stored. rewrite andb_true_iff, negb_true_iff, falsy_string_false.
  rewrite existsb_exists, Exists_exists.
  split; intros [Hid (d & Hin & Hd)]; (split; [exact Hid|]); exists d.
  - split; [apply list_elem_of_In, Hin|apply strict_eq_string_true, Hd].
  - split; [apply list_elem_of_In, Hin|apply strict_eq_string_true, Hd].
Qed.

Lemma names_stored_ids (a b : list doc) (id : string) :
  ids a = ids b -> names_stored a id = names_stored b id.
Proof.
  intros E. unfold names_stored. f_equal.
  assert (G : forall l : list doc,
            existsb (fun item : doc => strict_eq_string (item !! "_id") id) l
            = existsb (fun v => strict_eq_string v id) (ids l)).
  { induction l as [|x l IH]; [reflexivity|]. cbn. rewrite IH. reflexivity. }
  rewrite !G, E. reflexivity.
Qed.

Lemma ids_merge (l1 l2 : list doc) (d extra : doc) :
  extra !! "_id" = None ->
  ids (l1 ++ spread d extra :: l2) = ids (l1 ++ d :: l2).
Proof.
  intros H. unfold ids, spread. rewrite !map_app. cbn [map].
  rewrite lookup_union_r by exact H. reflexivity.
Qed.

Lemma update_miss (this : Repository) (id : string) (partial : doc) (w : World)
    (items : list doc) :
  holds this w items -> names_stored items id = false ->
  Repo.update this id partial w = (Returned 0, w).
Proof.
  intros H Hmiss. unfold Repo.update, names_stored in *.
  destruct (falsy_string id); [reflexivity|]. cbn [negb andb] in Hmiss.
  unfold bind. rewrite (read_all this w items H). cbv zeta.
  unfold findIndex. rewrite findIndex_from_none; [reflexivity|].
  apply Forall_forall. intros d Hin.
  destruct (strict_eq_string (d !! "_id") id) eqn:E; [|reflexivity].
  assert (Hex : existsb (fun item : doc => strict_eq_string (item !! "_id") id) items
                = true).
  { apply existsb_exists. exists d. split; [apply list_elem_of_In, Hin|exact E]. }
  congruence.
Qed.

(** The world a successful update leaves: the warning when verbose, then
    the write. *)
Lemma update_hit (this : Repository) (id : string) (partial : doc) (w : World)
    (l1 l2 : list doc) (d : doc) :
  id <> "" ->
  holds this w (l1 ++ d :: l2) ->
  Forall (fun x : doc => strict_eq_string (x !! "_id") id = false) l1 ->
  strict_eq_string (d !! "_id") id = true ->
  Repo.update this id partial w
  = (Returned 1,
     persisted this (l1 ++ spread d (delete "_id" partial) :: l2)
       (if verbose this
        then snd (console_warn ("Trying to update item _id: " +:+ id +:+ " with")
                    (partial !! "_id") w)
        else w)).
Proof.
  intros Hid H Hl1 Hd. unfold Repo.update.
  apply falsy_string_false in Hid. rewrite Hid.
  unfold bind at 1. rewrite (read_all this w _ H). cbv zeta.
  unfold findIndex. rewrite (findIndex_from_first _ l1 l2 d 0 Hl1 Hd).
  destruct (Z.eqb_spec (0 + Z.of_nat (length l1)) (-1)) as [E|_]; [lia|].
  replace (Z.to_nat (0 + Z.of_nat (length l1))) with (length l1) by lia.
  rewrite alter_middle. destruct (verbose this); reflexivity.
Qed.

(** update on a collection that holds [items]: what it returns, and that
    the collection holds the same identifiers afterwards. *)
Lemma update_run (this : Repository) (id : string) (partial : doc) (w : World)
    (items : list doc) :
  holds this w items ->
  exists w' items',
    Repo.update this id partial w
    = (Returned (if names_stored items id then 1 else 0), w')
    /\ holds this w' items'
    /\ ids items' = ids items
    /\ (names_stored items id = false -> w' = w).
Proof.
  intros H. destruct (names_stored items id) eqn:E.
  - pose proof E as E'. unfold names_stored in E'.
    apply andb_true_iff in E' as [Hid _].
    apply negb_true_iff, falsy_string_false in Hid.
    destruct (first_match_split
                (fun item : doc => strict_eq_string (item !! "_id") id) items)
      as [Hnone|(l1 & d & l2 & -> & Hl1 & Hd)].
    { rewrite (update_miss this id partial w items H) in *.
      - exfalso. unfold names_stored in E. apply andb_true_iff in E as [_ E].
        apply existsb_exists in E as (d & Hin & Hd).
        rewrite Forall_forall in Hnone. apply list_elem_of_In in Hin.
        rewrite (Hnone d Hin) in Hd. discriminate.
      - unfold names_stored. apply andb_false_iff. right.
        destruct (existsb _ items) eqn:Ex; [|reflexivity].
        apply existsb_exists in Ex as (d & Hin & Hd).
        rewrite Forall_forall in Hnone. apply list_elem_of_In in Hin.
        rewrite (Hnone d Hin) in Hd. discriminate. }
    eexists _, _. split; [apply (update_hit this id partial w l1 l2 d Hid H Hl1 Hd)|].
    split; [apply holds_persisted|]. split; [|discriminate].
    apply ids_merge, lookup_delete_eq.
  - exists w, items. split; [apply (update_miss this id partial w items H E)|].
    split; [exact H|]. split; reflexivity.
Qed.

(** X6. update on a valid collection never throws and returns 0 or 1: 1
    exactly when the id is not empty and some stored document carries it.
    The collection is valid afterwards and holds the same number of
    documents with the same identifiers in the same order; with 0 the
    world is left as it was. *)
Theorem update_keeps_identifiers (this : Repository) (id : string) (partial : doc)
    (w : World) (items : list doc) :
  holds this w items ->
  exists n w' items',
    Repo.update this id partial w = (Returned n, w')
    /\ (n = 0 \/ n = 1)
    /\ (n = 1 <-> id <> "" /\ Exists (has_id id) items)
    /\ holds this w' items'
    /\ ids items' = ids items
    /\ length items' = length items
    /\ (n = 0 -> w' = w).
Proof.
  intros H. destruct (update_run this id partial w items H)
    as (w' & items' & Hrun & Hw' & Hids & Hmiss).
  exists (if names_stored items id then 1 else 0), w', items'.
  split; [exact Hrun|]. rewrite <- names_stored_true.
  assert (Hlen : length items' = length items).
  { rewrite <- (length_map (fun d : doc => d !! "_id") items'),
            <- (length_map (fun d : doc => d !! "_id") items).
    unfold ids in Hids. rewrite Hids. reflexivity. }
  destruct (names_stored items id); repeat split; auto; try discriminate.
Qed.

(** X7. What a successful update adds to the trace: the warning, when
    the repository is verbose, and then one write of the collection key;
    a repository built without the verbose argument adds the write
    alone. *)
Theorem update_effects (this : Repository) (id : string) (partial : doc) (w : World)
    (l1 l2 : list doc) (d : doc) :
  id <> "" ->
  holds this w (l1 ++ d :: l2) ->
  Forall (fun x => ~ has_id id x) l1 ->
  has_id id d ->
  exists w' text,
    Repo.update this id partial w = (Returned 1, w')
    /\ text = JSON_stringify (l1 ++ spread d (delete "_id" partial) :: l2)
    /\ storage w' = <[collection this := text]> (storage w)
    /\ trace w'
       = trace w
         ++ (if verbose this
             then [ConsoleWarn ("Trying to update item _id: " +:+ id +:+ " with")
                     (partial !! "_id")]
             else [])
         ++ [SetItem (collection this) text]
    /\ exists w'',
         Repo.update (new_Repository (collection this) None) id partial w
         = (Returned 1, w'')
         /\ trace w'' = trace w ++ [SetItem (collection this) text].
Proof.
  intros Hid H Hl1 Hd.
  assert (Hl1' : Forall (fun x : doc => strict_eq_string (x !! "_id") id = false) l1).
  { eapply Forall_impl; [exact Hl1|]. intros x. apply strict_eq_string_false. }
  apply strict_eq_string_true in Hd.
  eexists _, _. split; [apply (update_hit this id partial w l1 l2 d Hid H Hl1' Hd)|].
  split; [reflexivity|]. split; [|split].
  - unfold persisted. cbn [snd localStorage_setItem storage].
    destruct (verbose this); reflexivity.
  - unfold persisted. cbn [snd localStorage_setItem trace].
    destruct (verbose this); cbn [snd console_warn trace];
      [rewrite <- app_assoc|]; reflexivity.
  - eexists. split.
    + apply (update_hit (new_Repository (collection this) None) id partial w l1 l2 d
               Hid H Hl1' Hd).
    + reflexivity.
Qed.



Lemma updateMany_loop_run (this : Repository) (docs : list UpdateManyDoc)
    (count : Z) (w : World) (items : list doc) :
  holds this w items ->
  exists w' items',
    Repo.updateMany_loop this docs count w
    = (Returned (count + Z.of_nat (length (List.filter
                   (fun d => names_stored items (umd_id d)) docs))), w')
    /\ holds this w' items'
    /\ ids items' = ids items.
Proof.
  revert count w items. induction docs as [|d docs IH]; intros count w items H.
  - exists w, items. cbn. rewrite Z.add_0_r. repeat split. exact H.
  - cbn [Repo.updateMany_loop List.filter]. unfold bind.
    destruct (update_run this (umd_id d) (delete "_id" (umd_fields d)) w items H)
      as (w1 & items1 & Hrun & H1 & Hids1 & _).
    rewrite Hrun.
    destruct (IH (count + (if names_stored items (umd_id d) then 1 else 0)) w1 items1 H1)
      as (w' & items' & Hloop & Hw' & Hids').
    exists w', items'. rewrite Hloop. split; [|split; [exact Hw'|congruence]].
    f_equal. f_equal.
    rewrite (filter_same _ (fun d => names_stored items (umd_id d)) docs)
      by (intros x; apply names_stored_ids, Hids1).
    destruct (names_stored items (umd_id d)); cbn [length]; lia.
Qed.

(** X9. updateMany on a valid collection never throws; it returns the
    number of entries whose [_id] is not empty and is carried by a stored
    document (an entry is counted each time it occurs), and the
    collection is valid afterwards with the same identifiers in the same
    order. *)
Theorem updateMany_counts_hits (this : Repository) (docs : list UpdateManyDoc)
    (w : World) (items : list doc) :
  holds this w items ->
  exists w' items',
    Repo.updateMany this docs w
    = (Returned (Z.of_nat (length (List.filter
                   (fun d => names_stored items (umd_id d)) docs))), w')
    /\ holds this w' items'
    /\ ids items' = ids items.
Proof.
  intros H. unfold Repo.updateMany.
  destruct docs as [|d docs].
  { exists w, items. repeat split. exact H. }
  destruct (Z.eqb_spec (Z.of_nat (length (d :: docs))) 0) as [E|_];
    [cbn [length] in E; lia|].
  destruct (updateMany_loop_run this (d :: docs) 0 w items H)
    as (w' & items' & Hrun & Hw' & Hids).
  exists w', items'. rewrite Hrun. repeat split; assumption.
Qed.

End Updating.

(** ** Further properties: delete and deleteMany *)

Section Deleting.
Context `{host : Host} {laws : HostLaws host}.

Lemma includes_false (ids : list string) (d : doc) :
  negb (Repo.includes ids (d !! "_id")) = true
  <-> Forall (fun id => ~ has_id id d) ids.
Proof.
  rewrite negb_true_iff. unfold Repo.includes. rewrite Forall_forall. split.
  - intros H id Hin Hd. apply strict_eq_string_true in Hd.
    assert (E : existsb (strict_eq_string (d !! "_id")) ids = true).
    { apply existsb_exists. exists id. split; [apply list_elem_of_In, Hin|exact Hd]. }
    congruence.
  - intros H. destruct (existsb _ ids) eqn:E; [|reflexivity].
    apply existsb_exists in E as (id & Hin & Hd).
    apply list_elem_of_In in Hin. destruct (H id Hin).
    apply strict_eq_string_true, Hd.
Qed.

Lemma filter_length_same {A : Type} (f : A -> bool) (l : list A) :
  length (List.filter f l) = length l -> List.filter f l = l.
Proof.
  intros E. destruct (all_or_some f l) as [Hall|Hsome]; [apply filter_all, Hall|].
  pose proof (filter_length_lt f l Hsome). lia.
Qed.

Lemma delete_run (this : Repository) (id : string) (w : World) (items : list doc) :
  id <> "" -> holds this w items ->
  Repo.delete this id w
  = (if Z.of_nat (length items)
        =? Z.of_nat (length (List.filter
                       (fun item : doc => negb (strict_eq_string (item !! "_id") id))
                       items))
     then (Returned 0, w)
     else (Returned 1,
           persisted this
             (List.filter (fun item : doc => negb (strict_eq_string (item !! "_id") id))
                items) w)).
Proof.
  intros Hid H. unfold Repo.delete. apply falsy_string_false in Hid. rewrite Hid.
  unfold bind at 1. rewrite (read_all this w items H). cbv zeta.
  destruct (_ =? _); reflexivity.
Qed.

Lemma deleteMany_run (this : Repository) (ids : list string) (w : World)
    (items : list doc) :
  ids <> [] -> holds this w items ->
  Repo.deleteMany this ids w
  = (let rest := List.filter (fun item : doc => negb (Repo.includes ids (item !! "_id")))
                   items in
     let count := Z.of_nat (length items) - Z.of_nat (length rest) in
     if count =? 0 then (Returned 0, w) else (Returned count, persisted this rest w)).
Proof.
  intros Hne H. unfold Repo.deleteMany.
  destruct ids as [|i ids]; [contradiction|].
  destruct (Z.eqb_spec (Z.of_nat (length (i :: ids))) 0) as [E|_];
    [cbn [length] in E; lia|].
  unfold bind at 1. rewrite (read_all this w items H). cbv zeta.
  destruct (_ =? 0); reflexivity.
Qed.

(** X10. deleteMany, for a non-empty sequence of ids on a valid
    collection, never throws and returns the number of documents it
    removed. The collection then holds exactly the documents whose [_id]
    is none of the ids, in stored order; when nothing was removed the
    world is left as it was; deleteMany with the same ids again returns
    0. *)
Theorem deleteMany_counts_removed (this : Repository) (ids : list string)
    (w : World) (items : list doc) :
  ids <> [] ->
  holds this w items ->
  exists w' rest,
    Repo.deleteMany this ids w
    = (Returned (Z.of_nat (length items) - Z.of_nat (length rest)), w')
    /\ holds this w' rest
    /\ select (fun d => Forall (fun id => ~ has_id id d) ids) items rest
    /\ (length rest = length items -> w' = w)
    /\ Repo.deleteMany this ids w' = (Returned 0, w').
Proof.
  intros Hne H. rewrite (deleteMany_run this ids w items Hne H). cbv zeta.
  set (keep := fun item : doc => negb (Repo.includes ids (item !! "_id"))).
  assert (Hsel : select (fun d => Forall (fun id => ~ has_id id d) ids) items
                   (List.filter keep items)).
  { apply select_filter. intros d. apply includes_false. }
  assert (Hagain : forall w', holds this w' (List.filter keep items) ->
            Repo.deleteMany this ids w' = (Returned 0, w')).
  { intros w' Hw'. rewrite (deleteMany_run this ids w' _ Hne Hw'). cbv zeta.
    fold keep. rewrite (filter_all keep (List.filter keep items)).
    - rewrite Z.sub_diag. reflexivity.
    - apply Forall_forall. intros d Hin.
      apply list_elem_of_In, List.filter_In in Hin as [_ Hd]. exact Hd. }
  pose proof (List.filter_length_le keep items) as Hle.
  destruct (Z.eqb_spec (Z.of_nat (length items) - Z.of_nat (length (List.filter keep items)))
              0) as [E|E].
  - assert (Esame : List.filter keep items = items)
      by (apply filter_length_same; lia).
    exists w, items. rewrite Esame in Hsel, Hagain. rewrite Z.sub_diag.
    split; [reflexivity|]. split; [exact H|]. split; [exact Hsel|].
    split; [reflexivity|]. apply Hagain, H.
  - exists (persisted this (List.filter keep items) w), (List.filter keep items).
    split; [reflexivity|]. split; [apply holds_persisted|]. split; [exact Hsel|].
    split; [intros Hlen; lia|]. apply Hagain, holds_persisted.
Qed.

(** X11. For a non-empty id, delete(id) and deleteMany([id]) leave the
    same world; delete returns 1 where deleteMany returns the number of
    documents removed, when that number is not 0. *)
Theorem delete_is_deleteMany_of_one (this : Repository) (id : string) (w : World)
    (items : list doc) :
  id <> "" ->
  holds this w items ->
  exists n m w',
    Repo.delete this id w = (Returned n, w')
    /\ Repo.deleteMany this [id] w = (Returned m, w')
    /\ 0 <= m
    /\ n = (if m =? 0 then 0 else 1).
Proof.
  intros Hid H.
  rewrite (delete_run this id w items Hid H).
  rewrite (deleteMany_run this [id] w items ltac:(discriminate) H). cbv zeta.
  rewrite (filter_same (fun item : doc => negb (Repo.includes [id] (item !! "_id")))
             (fun item : doc => negb (strict_eq_string (item !! "_id") id)) items).
  2:{ intros d. unfold Repo.includes. cbn [existsb]. rewrite orb_false_r. reflexivity. }
  set (rest := List.filter _ items).
  pose proof (List.filter_length_le
                (fun item : doc => negb (strict_eq_string (item !! "_id") id)) items)
    as Hle. fold rest in Hle.
  destruct (Z.eqb_spec (Z.of_nat (length items)) (Z.of_nat (length rest))) as [E|E].
  - rewrite E, Z.sub_diag. exists 0, 0, w. repeat split. lia.
  - destruct (Z.eqb_spec (Z.of_nat (length items) - Z.of_nat (length rest)) 0) as [E0|E0];
      [lia|].
    eexists 1, _, _. split; [reflexivity|]. split; [reflexivity|].
    split; [lia|]. apply Z.eqb_neq in E0. rewrite E0. reflexivity.
Qed.

Lemma NoDup_ids_filter (f : doc -> bool) (items : list doc) :
  NoDup (ids items) -> NoDup (ids (List.filter f items)).
Proof.
  unfold ids. induction items as [|d items IH]; cbn [map List.filter]; [auto|].
  intros Hnd. apply NoDup_cons in Hnd as [Hd Hnd].
  destruct (f d); cbn [map]; [|auto].
  apply NoDup_cons. split; [|auto].
  intros Hin. apply Hd. apply list_elem_of_fmap in Hin as (x & Hx & Hin).
  apply list_elem_of_fmap. exists x. split; [exact Hx|].
  apply list_elem_of_In. apply list_elem_of_In, List.filter_In in Hin as [Hin _].
  exact Hin.
Qed.

(** X12. update, updateMany, delete and deleteMany keep identifiers
    unique: on a collection in which no two documents share an [_id], each
    of them returns normally and leaves a collection with that
    property. *)
Theorem unique_ids_kept (this : Repository) (w : World) (items : list doc) :
  holds this w items ->
  NoDup (ids items) ->
  (forall id partial, exists n w' items',
     Repo.update this id partial w = (Returned n, w')
     /\ holds this w' items' /\ NoDup (ids items'))
  /\ (forall docs, exists n w' items',
        Repo.updateMany this docs w = (Returned n, w')
        /\ holds this w' items' /\ NoDup (ids items'))
  /\ (forall id, exists n w' items',
        Repo.delete this id w = (Returned n, w')
        /\ holds this w' items' /\ NoDup (ids items'))
  /\ (forall given, exists n w' items',
        Repo.deleteMany this given w = (Returned n, w')
        /\ holds this w' items' /\ NoDup (ids items')).
Proof.
  intros H Hnd. split; [|split; [|split]].
  - intros id partial.
    destruct (update_run this id partial w items H) as (w' & items' & Hrun & Hw' & Hids & _).
    eexists _, w', items'. split; [exact Hrun|]. split; [exact Hw'|].
    rewrite Hids. exact Hnd.
  - intros docs.
    destruct (updateMany_loop_run this docs 0 w items H)
      as (w' & items' & Hrun & Hw' & Hids).
    unfold Repo.updateMany. destruct (Z.of_nat (length docs) =? 0).
    + exists 0, w, items. repeat split; assumption.
    + eexists _, w', items'. split; [exact Hrun|]. split; [exact Hw'|].
      rewrite Hids. exact Hnd.
  - intros id. destruct (String.eqb_spec id "") as [->|Hid].
    + exists 0, w, items. repeat split; assumption.
    + rewrite (delete_run this id w items Hid H).
      destruct (_ =? _).
      * exists 0, w, items. repeat split; assumption.
      * eexists 1, _, _. split; [reflexivity|]. split; [apply holds_persisted|].
        apply NoDup_ids_filter, Hnd.
  - intros l. destruct l as [|i l].
    + exists 0, w, items. repeat split; assumption.
    + rewrite (deleteMany_run this (i :: l) w items ltac:(discriminate) H). cbv zeta.
      destruct (_ =? 0).
      * exists 0, w, items. repeat split; assumption.
      * eexists _, _, _. split; [reflexivity|]. split; [apply holds_persisted|].
        apply NoDup_ids_filter, Hnd.
Qed.

End Deleting.

(** ** Further properties: create *)

Section Creating.
Context `{host : Host} {laws : HostLaws host}.

Lemma ensure_id_truthy (r : loc) (o : doc) (w : World) :
  heap w !! r = Some o -> falsy (o !! "_id") = false ->
  Repo.ensure_id r w = (Returned tt, w).
Proof.
  intros Hr Ho. unfold Repo.ensure_id, bind, deref. rewrite Hr, Ho. reflexivity.
Qed.

Lemma ensure_id_falsy (r : loc) (o : doc) (w : World) :
  heap w !! r = Some o -> falsy (o !! "_id") = true ->
  Repo.ensure_id r w
  = (Returned tt,
     {| storage := storage w;
        heap := <[r := <["_id" := JStr (uuidv4 (drawn w))]> o]> (heap w);
        drawn := S (drawn w);
        trace := trace w |}).
Proof.
  intros Hr Ho. unfold Repo.ensure_id, bind, deref. rewrite Hr, Ho. reflexivity.
Qed.

Lemma uuid_truthy (o : doc) (n : nat) :
  falsy (<["_id" := JStr (uuidv4 n)]> o !! "_id") = false.
Proof.
  rewrite lookup_insert_eq. cbn [falsy]. apply String.eqb_neq, uuid_nonempty.
Qed.

(** The loop of create leaves an object whose [_id] is truthy as it
    is. *)
Lemma forEach_keeps_truthy (ds : list loc) (w w' : World) (r : loc) (o : doc) :
  Forall (fun r => is_Some (heap w !! r)) ds ->
  forEach ds Repo.ensure_id w = (Returned tt, w') ->
  heap w !! r = Some o -> falsy (o !! "_id") = false ->
  heap w' !! r = Some o.
Proof.
  intros Hall Hrun Hr Ho.
  destruct (forEach_ensure_id ds w Hall) as (w2 & Hrun2 & _ & _ & Hh).
  rewrite Hrun in Hrun2. injection Hrun2 as <-.
  destruct (Hh r o Hr) as (o' & Ho' & Hin & Hout).
  destruct (decide (r ∈ ds)) as [Hd|Hd].
  - specialize (Hin Hd). unfold with_id in Hin. rewrite Ho in Hin. congruence.
  - rewrite (Hout Hd) in Ho'. exact Ho'.
Qed.

(** The loop of create gives each object that lacks an identifier the
    result of a draw of its own. *)
Lemma forEach_draws (ds : list loc) (w : World) :
  Forall (fun r => is_Some (heap w !! r)) ds ->
  exists w' (draw : loc -> nat),
    forEach ds Repo.ensure_id w = (Returned tt, w')
    /\ (drawn w <= drawn w')%nat
    /\ (forall r o, r ∈ ds -> heap w !! r = Some o -> falsy (o !! "_id") = true ->
          heap w' !! r = Some (<["_id" := JStr (uuidv4 (draw r))]> o)
          /\ (drawn w <= draw r < drawn w')%nat)
    /\ (forall r1 r2 o1 o2, r1 <> r2 -> r1 ∈ ds -> r2 ∈ ds ->
          heap w !! r1 = Some o1 -> heap w !! r2 = Some o2 ->
          falsy (o1 !! "_id") = true -> falsy (o2 !! "_id") = true ->
          draw r1 <> draw r2).
Proof.
  revert w. induction ds as [|r0 ds IH]; intros w Hall.
  { exists w, (fun _ => O). split; [reflexivity|]. split; [lia|].
    split; intros; exfalso; eapply not_elem_of_nil; eassumption. }
  apply Forall_cons in Hall as [[o0 Hr0] Hall].
  destruct (falsy (o0 !! "_id")) eqn:E0.
  - pose proof (ensure_id_falsy r0 o0 w Hr0 E0) as Hstep.
    set (o1 := <["_id" := JStr (uuidv4 (drawn w))]> o0) in Hstep.
    set (w1 := {| storage := storage w |}) in Hstep.
    assert (Hall1 : Forall (fun r => is_Some (heap w1 !! r)) ds).
    { eapply Forall_impl; [exact Hall|]. intros r [o Hr]. cbn [w1 heap].
      destruct (decide (r0 = r)) as [<-|Hne].
      - rewrite lookup_insert_eq. eauto.
      - rewrite lookup_insert_ne by exact Hne. eauto. }
    destruct (IH w1 Hall1) as (w' & draw & Hloop & Hle & Hdraw & Hdiff).
    cbn [w1 drawn] in Hle.
    exists w', (fun r => if decide (r = r0) then drawn w else draw r).
    cbn [forEach]. unfold bind. rewrite Hstep.
    split; [exact Hloop|]. split; [lia|].
    assert (Hother : forall r o, r <> r0 -> heap w !! r = Some o ->
              heap w1 !! r = Some o).
    { intros r o Hne Hr. cbn [w1 heap]. rewrite lookup_insert_ne by congruence.
      exact Hr. }
    split.
    + intros r o Hin Hr Ho. destruct (decide (r = r0)) as [->|Hne].
      * replace o with o0 by congruence. split; [|lia].
        apply (forEach_keeps_truthy ds w1 w' r0 o1 Hall1 Hloop).
        -- cbn [w1 heap]. apply lookup_insert_eq.
        -- apply uuid_truthy.
      * apply elem_of_cons in Hin as [Hin|Hin]; [contradiction|].
        destruct (Hdraw r o Hin (Hother r o Hne Hr) Ho) as [Hh Hrange].
        cbn [w1 drawn] in Hrange. split; [exact Hh|lia].
    + intros r1 r2 o1' o2' Hne H1 H2 Hr1 Hr2 Ho1 Ho2.
      destruct (decide (r1 = r0)) as [->|Hne1], (decide (r2 = r0)) as [->|Hne2].
      * contradiction.
      * apply elem_of_cons in H2 as [H2|H2]; [contradiction|].
        destruct (Hdraw r2 o2' H2 (Hother r2 o2' Hne2 Hr2) Ho2) as [_ Hrange].
        cbn [w1 drawn] in Hrange. lia.
      * apply elem_of_cons in H1 as [H1|H1]; [contradiction|].
        destruct (Hdraw r1 o1' H1 (Hother r1 o1' Hne1 Hr1) Ho1) as [_ Hrange].
        cbn [w1 drawn] in Hrange. lia.
      * apply elem_of_cons in H1 as [H1|H1]; [contradiction|].
        apply elem_of_cons in H2 as [H2|H2]; [contradiction|].
        apply (Hdiff r1 r2 o1' o2' Hne H1 H2); auto.
  - destruct (IH w Hall) as (w' & draw & Hloop & Hle & Hdraw & Hdiff).
    exists w', draw. cbn [forEach]. unfold bind.
    rewrite (ensure_id_truthy r0 o0 w Hr0 E0).
    split; [exact Hloop|]. split; [exact Hle|].
    assert (Hin' : forall r o, r ∈ r0 :: ds -> heap w !! r = Some o ->
              falsy (o !! "_id") = true -> r ∈ ds).
    { intros r o Hin Hr Ho. apply elem_of_cons in Hin as [->|Hin]; [|exact Hin].
      congruence. }
    split.
    + intros r o Hin Hr Ho. apply Hdraw; eauto.
    + intros r1 r2 o1 o2 Hne H1 H2 Hr1 Hr2 Ho1 Ho2.
      apply (Hdiff r1 r2 o1 o2 Hne); eauto.
Qed.

(** X13. create, given any number of objects (or one object outside an
    array) on a valid collection, returns the array of those objects and
    writes once. Each object has its identifier populated; the collection
    then holds the documents it held followed by the given objects in the
    order given, so it grew by their number; objects that were not passed
    are untouched. *)
Theorem create_appends (this : Repository) (newDocs : NewDocs) (w : World)
    (items : list doc) :
  holds this w items ->
  Forall (fun r => is_Some (heap w !! r)) (as_array newDocs) ->
  exists w' objs,
    Repo.create this newDocs w = (Returned (as_array newDocs), w')
    /\ Forall2 (fun r o' => heap w' !! r = Some o'
                            /\ exists o, heap w !! r = Some o /\ with_id o o')
         (as_array newDocs) objs
    /\ Repo.read this None w' = (Returned (items ++ objs), w')
    /\ length (items ++ objs) = (length items + length (as_array newDocs))%nat
    /\ trace w' = trace w ++ [SetItem (collection this) (JSON_stringify (items ++ objs))]
    /\ (forall r o, r ∉ as_array newDocs -> heap w !! r = Some o ->
          heap w' !! r = Some o).
Proof.
  intros H Hall.
  destruct (create_run this newDocs w items H Hall)
    as (w' & objs & Hrun & Hobjs & Hheap & Hw' & Htrace).
  exists w', objs. split; [exact Hrun|]. split.
  { apply Forall2_same_length_lookup. split; [eapply Forall2_length, Hobjs|].
    intros i r o' Hi Ho'.
    pose proof (Forall2_lookup_lr _ _ _ _ _ _ Hobjs Hi Ho') as Hr.
    split; [exact Hr|].
    rewrite Forall_forall in Hall.
    destruct (Hall r (list_elem_of_lookup_2 _ _ _ Hi)) as [o Ho].
    exists o. split; [exact Ho|].
    destruct (Hheap r o Ho) as (o2 & Ho2 & Hin & _).
    replace o' with o2 by congruence.
    apply Hin, (list_elem_of_lookup_2 _ _ _ Hi). }
  split; [apply (read_all this w' _ Hw')|]. split.
  { rewrite length_app. f_equal. symmetry. eapply Forall2_length, Hobjs. }
  split; [exact Htrace|].
  intros r o Hout Hr. destruct (Hheap r o Hr) as (o' & Ho' & _ & Hsame).
  rewrite (Hsame Hout) in Ho'. exact Ho'.
Qed.

(** X14. The same object given twice to one create gets one identifier
    and is stored twice: when it had no truthy [_id], one identifier is
    drawn and the collection gains two documents carrying it. *)
Theorem create_same_object_twice (this : Repository) (w : World) (items : list doc)
    (r : loc) (o : doc) :
  holds this w items ->
  heap w !! r = Some o ->
  falsy (o !! "_id") = true ->
  exists w' o',
    Repo.create this (Many [r; r]) w = (Returned [r; r], w')
    /\ o' = <["_id" := JStr (uuidv4 (drawn w))]> o
    /\ heap w' !! r = Some o'
    /\ drawn w' = S (drawn w)
    /\ Repo.read this None w' = (Returned (items ++ [o'; o']), w').
Proof.
  intros H Hr Ho. unfold Repo.create. unfold bind at 1.
  rewrite (read_all this w items H). cbv zeta. cbn [as_array forEach].
  unfold bind at 1. unfold bind at 1. rewrite (ensure_id_falsy r o w Hr Ho).
  set (o' := <["_id" := JStr (uuidv4 (drawn w))]> o).
  set (w1 := {| storage := storage w |}).
  assert (Hr1 : heap w1 !! r = Some o') by apply lookup_insert_eq.
  unfold bind at 1.
  rewrite (ensure_id_truthy r o' w1 Hr1 (uuid_truthy o (drawn w))).
  cbn [mapM]. unfold bind, deref, ret. rewrite Hr1. cbv beta iota. rewrite Hr1.
  cbn [localStorage_setItem].
  eexists _, o'. split; [reflexivity|]. split; [reflexivity|].
  cbn [heap drawn]. split; [exact Hr1|]. split; [reflexivity|].
  apply read_all. apply (holds_after_set this w1).
Qed.

(** X15. One create never gives the result of one draw to two objects:
    two different objects of the input that both lacked a truthy [_id]
    end with the identifiers of two different draws, both made during the
    call. *)
Theorem create_draws_apart (this : Repository) (newDocs : NewDocs) (w : World)
    (items : list doc) (r1 r2 : loc) (o1 o2 : doc) :
  holds this w items ->
  Forall (fun r => is_Some (heap w !! r)) (as_array newDocs) ->
  r1 <> r2 ->
  r1 ∈ as_array newDocs -> r2 ∈ as_array newDocs ->
  heap w !! r1 = Some o1 -> heap w !! r2 = Some o2 ->
  falsy (o1 !! "_id") = true -> falsy (o2 !! "_id") = true ->
  exists w' n1 n2,
    Repo.create this newDocs w = (Returned (as_array newDocs), w')
    /\ n1 <> n2
    /\ (drawn w <= n1 < drawn w')%nat /\ (drawn w <= n2 < drawn w')%nat
    /\ heap w' !! r1 = Some (<["_id" := JStr (uuidv4 n1)]> o1)
    /\ heap w' !! r2 = Some (<["_id" := JStr (uuidv4 n2)]> o2).
Proof.
  intros H Hall Hne Hin1 Hin2 Hr1 Hr2 Ho1 Ho2.
  destruct (forEach_draws (as_array newDocs) w Hall)
    as (w1 & draw & Hloop & _ & Hdraw & Hdiff).
  destruct (forEach_ensure_id (as_array newDocs) w Hall) as (w1' & Hloop' & _ & _ & Hh).
  rewrite Hloop in Hloop'. injection Hloop' as <-.
  destruct (mapM_deref (as_array newDocs) w1) as (objs & Hmap & _).
  { eapply Forall_impl; [exact Hall|]. intros r [o Hr].
    destruct (Hh r o Hr) as (o' & Ho' & _). eauto. }
  destruct (Hdraw r1 o1 Hin1 Hr1 Ho1) as [Hh1 Hrange1].
  destruct (Hdraw r2 o2 Hin2 Hr2 Ho2) as [Hh2 Hrange2].
  eexists _, (draw r1), (draw r2). split.
  { unfold Repo.create. unfold bind at 1. rewrite (read_all this w items H). cbv zeta.
    unfold bind at 1. rewrite Hloop. unfold bind at 1. rewrite Hmap.
    unfold bind. cbn [localStorage_setItem ret]. reflexivity. }
  cbn [heap drawn]. split; [apply (Hdiff r1 r2 o1 o2); assumption|].
  repeat split; try assumption; lia.
Qed.

(** X16. A document just created can be deleted by the identifier it
    ended with: when no document held before carries that identifier,
    delete returns 1 and the collection is back to the documents it held
    before the create. *)
Theorem create_then_delete (this : Repository) (w : World) (items : list doc)
    (r : loc) (o : doc) :
  holds this w items ->
  heap w !! r = Some o ->
  exists w' o',
    Repo.create this (One r) w = (Returned [r], w')
    /\ heap w' !! r = Some o'
    /\ forall s, has_id s o' -> Forall (fun d => ~ has_id s d) items ->
         exists w'', Repo.delete this s w' = (Returned 1, w'')
                     /\ Repo.read this None w'' = (Returned items, w'').
Proof.
  intros H Hr.
  destruct (create_run this (One r) w items H) as (w' & objs & Hrun & Hobjs & Hheap & Hw' & _).
  { cbn [as_array]. repeat constructor. eauto. }
  cbn [as_array] in *.
  apply Forall2_cons_inv_l in Hobjs as (o' & objs1 & Ho' & Hobjs & ->).
  apply Forall2_nil_inv_l in Hobjs as ->.
  exists w', o'. split; [exact Hrun|]. split; [exact Ho'|].
  intros s Hs Hfresh.
  destruct (Hheap r o Hr) as (o2 & Ho2 & Hwith & _).
  replace o2 with o' in * by congruence.
  assert (Htruthy : falsy (o' !! "_id") = false)
    by (apply (with_id_truthy o o'), Hwith; set_solver).
  assert (Hne : s <> "").
  { intros ->. unfold has_id in Hs. rewrite Hs in Htruthy. discriminate Htruthy. }
  rewrite (delete_run this s w' _ Hne Hw').
  set (keep := fun item : doc => negb (strict_eq_string (item !! "_id") s)).
  assert (Hrest : List.filter keep (items ++ [o']) = items).
  { rewrite List.filter_app. cbn [List.filter].
    assert (Hdrop : keep o' = false) by (apply differs_false, Hs).
    rewrite Hdrop, app_nil_r. apply filter_all.
    eapply Forall_impl; [exact Hfresh|]. intros d. apply differs_true. }
  rewrite Hrest, length_app. cbn [length].
  destruct (Z.eqb_spec (Z.of_nat (length items + 1)) (Z.of_nat (length items))) as [E|_];
    [lia|].
  eexists. split; [reflexivity|]. apply read_all, holds_persisted.
Qed.

End Creating.

(** ** Further properties: guards, logging, queries after writes *)

Section Guards.
Context `{host : Host}.

(** X17. The guards come before the store is read: update and delete
    with the empty id, updateMany when every entry has the empty [_id]
    (the empty sequence included) and deleteMany of the empty sequence
    return 0 and leave the world as it was, whatever the store holds,
    valid or not. *)
Theorem empty_ids_return_zero (this : Repository) (w : World) :
  (forall partial, Repo.update this "" partial w = (Returned 0, w))
  /\ Repo.delete this "" w = (Returned 0, w)
  /\ (forall docs, Forall (fun d => umd_id d = "") docs ->
        Repo.updateMany this docs w = (Returned 0, w))
  /\ Repo.deleteMany this [] w = (Returned 0, w).
Proof.
  split; [reflexivity|]. split; [reflexivity|]. split; [|reflexivity].
  intros docs Hall. unfold Repo.updateMany.
  destruct (Z.of_nat (length docs) =? 0); [reflexivity|].
  assert (G : forall count, Repo.updateMany_loop this docs count w = (Returned count, w)).
  { induction Hall as [|d docs Hd _ IH]; intros count; cbn [Repo.updateMany_loop].
    - reflexivity.
    - unfold bind. rewrite Hd, update_empty_id, IH, Z.add_0_r. reflexivity. }
  apply G.
Qed.

Lemma writes_app (w : World) (events : list event) (t : list event) :
  trace w = t ++ events -> writes w = List.filter is_write t ++ List.filter is_write events.
Proof. intros E. unfold writes. rewrite E. apply List.filter_app. Qed.








End Guards.

Section Queries.
Context `{host : Host} {laws : HostLaws host}.

(** X19. A written field can be queried at once: after a successful
    update(id, partial) in which the partial gives the string [value] at a
    key other than [_id], read with the filter of that key and value
    returns the updated document, which still carries the id. *)
Theorem update_then_query (this : Repository) (id : string) (partial : doc)
    (w : World) (l1 l2 : list doc) (d : doc) (key value : string) :
  id <> "" ->
  holds this w (l1 ++ d :: l2) ->
  Forall (fun x => ~ has_id id x) l1 ->
  has_id id d ->
  key <> "_id" ->
  partial !! key = Some (JStr value) ->
  exists w' d' res,
    Repo.update this id partial w = (Returned 1, w')
    /\ has_id id d'
    /\ d' !! key = Some (JStr value)
    /\ Repo.read this (Some {[key := value]}) w' = (Returned res, w')
    /\ d' ∈ res.
Proof.
  intros Hid H Hl1 Hd Hkey Hp.
  assert (Hl1' : Forall (fun x : doc => strict_eq_string (x !! "_id") id = false) l1).
  { eapply Forall_impl; [exact Hl1|]. intros x. apply strict_eq_string_false. }
  pose proof Hd as Hd'. apply strict_eq_string_true in Hd'.
  pose proof (update_hit this id partial w l1 l2 d Hid H Hl1' Hd') as Hrun.
  set (d' := spread d (delete "_id" partial)) in Hrun.
  set (w' := persisted _ _ _) in Hrun.
  assert (Hw' : holds this w' (l1 ++ d' :: l2)) by apply holds_persisted.
  assert (Hval : d' !! key = Some (JStr value)).
  { unfold d', spread. apply lookup_union_Some_l.
    rewrite lookup_delete_ne by congruence. exact Hp. }
  exists w', d', (List.filter (Repo.matches {[key := value]}) (l1 ++ d' :: l2)).
  split; [exact Hrun|]. split.
  { unfold has_id, d', spread. rewrite lookup_union_r by apply lookup_delete_eq.
    exact Hd. }
  split; [exact Hval|]. split; [apply (read_query this _ w' _ Hw')|].
  apply list_elem_of_In, List.filter_In. split.
  - apply list_elem_of_In. set_solver.
  - apply matches_satisfies. intros k v Hk.
    apply lookup_singleton_Some in Hk as [<- <-]. exact Hval.
Qed.

End Queries.

(** ** The reference host satisfies the laws *)

Lemma reference_laws : HostLaws reference_host.
Proof.
  split.
  - exact JSONTextFacts.parse_stringify_reference.
  - exact JSONTextFacts.parse_empty_reference.
  - reflexivity.
  - intros n. cbn. discriminate.
Qed.

(** ** The theorems at concrete inputs *)

Section Instances.
Import Example.

Lemma two_notes_holds : holds (host := reference_host) notes two_notes [alice; bob].
Proof. vm_compute. reflexivity. Qed.

Lemma twins_holds : holds (host := reference_host) notes twins [alice; alice].
Proof. vm_compute. reflexivity. Qed.

Lemma read_filter_exact_witness :
  Repo.read (host := reference_host) notes None two_notes = (Returned [alice; bob], two_notes)
  /\ exists res,
       Repo.read (host := reference_host) notes (Some {["name" := "Bob"]}) two_notes
       = (Returned res, two_notes)
       /\ select (satisfies {["name" := "Bob"]}) [alice; bob] res.
Proof.
  apply (read_filter_exact (host := reference_host) notes {["name" := "Bob"]} two_notes [alice; bob]).
  vm_compute. reflexivity.
Defined.

Lemma update_absent_noop_witness :
  Repo.update (host := reference_host) notes "zz" (<["name" := JStr "Zed"]> ∅) two_notes
  = (Returned 0, two_notes).
Proof.
  apply (update_absent_noop (host := reference_host) notes "zz" _ two_notes [alice; bob]).
  right. split; [vm_compute; reflexivity|].
  repeat constructor; vm_compute; discriminate.
Defined.

Lemma deleteMany_absent_noop_witness :
  Repo.deleteMany (host := reference_host) notes ["zz"; "yy"] two_notes = (Returned 0, two_notes).
Proof.
  apply (deleteMany_absent_noop (host := reference_host) notes ["zz"; "yy"] two_notes [alice; bob]).
  - discriminate.
  - vm_compute. reflexivity.
  - repeat constructor; vm_compute; discriminate.
Defined.

Lemma corrupt_store_aborts_witness :
  (forall q, Repo.read (host := reference_host) notes q corrupt = (Threw SyntaxError, corrupt))
  /\ (forall newDocs,
        Repo.create (host := reference_host) notes newDocs corrupt = (Threw SyntaxError, corrupt))
  /\ (forall id partial, id <> "" ->
        Repo.update (host := reference_host) notes id partial corrupt = (Threw SyntaxError, corrupt))
  /\ (forall docs, Exists (fun d => umd_id d <> "") docs ->
        Repo.updateMany (host := reference_host) notes docs corrupt = (Threw SyntaxError, corrupt))
  /\ (forall id, id <> "" ->
        Repo.delete (host := reference_host) notes id corrupt = (Threw SyntaxError, corrupt))
  /\ (forall ids, ids <> [] ->
        Repo.deleteMany (host := reference_host) notes ids corrupt = (Threw SyntaxError, corrupt)).
Proof.
  apply (corrupt_store_aborts (host := reference_host) notes corrupt "{oops").
  - vm_compute. reflexivity.
  - discriminate.
  - vm_compute. reflexivity.
Defined.

(** C8 fails as stated: on a store whose text is not JSON, update with
    the empty id returns 0 and throws nothing. *)
Lemma update_empty_id_on_corrupt_store :
  storage corrupt !! collection notes = Some "{oops"
  /\ JSON_parse (Host := reference_host) "{oops" = Invalid
  /\ Repo.update (host := reference_host) notes "" (<["name" := JStr "Zed"]> ∅) corrupt
     = (Returned 0, corrupt).
Proof. repeat split; vm_compute; reflexivity. Qed.

Lemma create_empty_writes_witness :
  exists w',
    Repo.create (host := reference_host) notes (Many []) two_notes = (Returned [], w')
    /\ trace w' = trace two_notes
                  ++ [SetItem (collection notes) (JSON_stringify (Host := reference_host) [alice; bob])]
    /\ storage w' = <[collection notes := JSON_stringify (Host := reference_host) [alice; bob]]>
                      (storage two_notes)
    /\ holds (host := reference_host) notes w' [alice; bob].
Proof.
  apply (create_empty_writes (host := reference_host) (laws := reference_laws) notes two_notes).
  vm_compute. reflexivity.
Defined.

Lemma delete_flag_witness :
  exists n w' rest,
    Repo.delete (host := reference_host) notes "a1" two_notes = (Returned n, w')
    /\ (n = 0 \/ n = 1)
    /\ (n = 1 <-> "a1" <> "" /\ Exists (has_id "a1") [alice; bob])
    /\ (n = 0 -> w' = two_notes)
    /\ Repo.read (host := reference_host) notes None w' = (Returned rest, w')
    /\ (n = 0 -> rest = [alice; bob])
    /\ (n = 1 -> select (fun d => ~ has_id "a1" d) [alice; bob] rest
                 /\ Forall (fun d => ~ has_id "a1" d) rest)
    /\ (forall l1 d l2,
          "a1" <> "" -> [alice; bob] = l1 ++ d :: l2 -> has_id "a1" d ->
          Forall (fun x => ~ has_id "a1" x) (l1 ++ l2) ->
          n = 1 /\ rest = l1 ++ l2)
    /\ Repo.delete (host := reference_host) notes "a1" w' = (Returned 0, w').
Proof.
  apply (delete_flag (host := reference_host) (laws := reference_laws) notes "a1"
           two_notes).
  vm_compute. reflexivity.
Defined.

(** C4 fails as stated: with the same identifier stored twice, delete
    removes two documents and returns 1. *)
Lemma delete_twins_returns_one :
  holds (host := reference_host) notes twins [alice; alice]
  /\ exists w', Repo.delete (host := reference_host) notes "a1" twins = (Returned 1, w')
                /\ Repo.read (host := reference_host) notes None w' = (Returned [], w').
Proof.
  split; [exact twins_holds|].
  exists (snd (Repo.delete (host := reference_host) notes "a1" twins)).
  split; vm_compute; reflexivity.
Qed.

Lemma update_first_match_witness :
  exists w' d',
    Repo.update (host := reference_host) notes "b2" (<["_id" := JStr "zz"]> (<["name" := JStr "Rob"]> ∅))
      two_notes = (Returned 1, w')
    /\ Repo.read (host := reference_host) notes None w' = (Returned ([alice] ++ d' :: []), w')
    /\ has_id "b2" d'
    /\ (forall k, k <> "_id" ->
          is_Some ((<["_id" := JStr "zz"]> (<["name" := JStr "Rob"]> ∅) : doc) !! k) ->
          d' !! k = (<["_id" := JStr "zz"]> (<["name" := JStr "Rob"]> ∅) : doc) !! k)
    /\ (forall k, (<["_id" := JStr "zz"]> (<["name" := JStr "Rob"]> ∅) : doc) !! k = None ->
          d' !! k = bob !! k).
Proof.
  apply (update_first_match (host := reference_host) (laws := reference_laws) notes "b2" _
           two_notes [alice] [] bob).
  - discriminate.
  - vm_compute. reflexivity.
  - repeat constructor; vm_compute; discriminate.
  - vm_compute. reflexivity.
Defined.

(** C5 fails as stated: with the same identifier stored twice, update
    changes the first of the two documents and leaves the second, which
    carries the identifier too, with the name it had. *)
Lemma update_twins_changes_first_only :
  holds (host := reference_host) notes twins [alice; alice]
  /\ exists w',
       Repo.update (host := reference_host) notes "a1"
         (<["_id" := JStr "zz"]> (<["name" := JStr "Al"]> ∅)) twins = (Returned 1, w')
       /\ Repo.read (host := reference_host) notes None w'
          = (Returned [<["name" := JStr "Al"]> alice; alice], w')
       /\ alice !! "name" = Some (JStr "Alice").
Proof.
  split; [exact twins_holds|].
  exists (snd (Repo.update (host := reference_host) notes "a1"
                 (<["_id" := JStr "zz"]> (<["name" := JStr "Al"]> ∅)) twins)).
  repeat split; vm_compute; reflexivity.
Qed.

Lemma create_then_read_witness :
  exists w' a' b',
    Repo.create (host := reference_host) notes (Many [0%nat; 1%nat]) two_notes
    = (Returned [0%nat; 1%nat], w')
    /\ heap w' !! 0%nat = Some a' /\ heap w' !! 1%nat = Some b'
    /\ with_id (host := reference_host) carol a' /\ with_id (host := reference_host) dave b'
    /\ falsy (a' !! "_id") = false /\ falsy (b' !! "_id") = false
    /\ (forall k, k <> "_id" -> a' !! k = carol !! k /\ b' !! k = dave !! k)
    /\ Repo.read (host := reference_host) notes None w' = (Returned ([alice; bob] ++ [a'; b']), w').
Proof.
  apply (create_then_read (host := reference_host) (laws := reference_laws) notes two_notes
           [alice; bob] 0%nat 1%nat carol dave).
  - vm_compute. reflexivity.
  - reflexivity.
  - reflexivity.
Defined.

Lemma create_keeps_given_id_witness :
  exists w' objs,
    Repo.create (host := reference_host) notes (Many [0%nat; 1%nat]) (fresh_world [alice; carol])
    = (Returned [0%nat; 1%nat], w')
    /\ heap w' !! 0%nat = Some alice
    /\ Forall2 (fun r o => heap w' !! r = Some o) [0%nat; 1%nat] objs
    /\ Repo.read (host := reference_host) notes None w' = (Returned ([] ++ objs), w').
Proof.
  apply (create_keeps_given_id (host := reference_host) (laws := reference_laws) notes
           (Many [0%nat; 1%nat]) (fresh_world [alice; carol]) [] 0%nat alice "a1").
  - vm_compute. reflexivity.
  - repeat constructor; vm_compute; eauto.
  - set_solver.
  - reflexivity.
  - reflexivity.
  - discriminate.
Defined.

(** C3 fails as stated: a document given with the empty string as [_id]
    is stored under a generated identifier. *)
Lemma create_replaces_empty_id :
  dave !! "_id" = Some (JStr "")
  /\ exists w',
       Repo.create (host := reference_host) notes (One 1%nat) (fresh_world [carol; dave])
       = (Returned [1%nat], w')
       /\ heap w' !! 1%nat = Some (<["_id" := JStr "uuid-0"]> dave)
       /\ Repo.read (host := reference_host) notes None w'
          = (Returned [<["_id" := JStr "uuid-0"]> dave], w').
Proof.
  split; [reflexivity|].
  exists (snd (Repo.create (host := reference_host) notes (One 1%nat) (fresh_world [carol; dave]))).
  repeat split; vm_compute; reflexivity.
Qed.

(** The scenario of the specification: create a note, read it, change
    it, delete it. *)
Example scenario_notes :
  let hi : doc := <["text" := JStr "hi"]> ∅ in
  let w0 := fresh_world [hi] in
  let w1 := snd (Repo.create (host := reference_host) notes (One 0%nat) w0) in
  let w2 := snd (Repo.update (host := reference_host) notes "uuid-0"
                   (<["text" := JStr "bye"]> ∅) w1) in
  let w3 := snd (Repo.delete (host := reference_host) notes "uuid-0" w2) in
  fst (Repo.read (host := reference_host) notes None w0) = Returned []
  /\ fst (Repo.create (host := reference_host) notes (One 0%nat) w0) = Returned [0%nat]
  /\ heap w1 !! 0%nat = Some (<["_id" := JStr "uuid-0"]> hi)
  /\ fst (Repo.read (host := reference_host) notes None w1)
     = Returned [<["_id" := JStr "uuid-0"]> hi]
  /\ fst (Repo.update (host := reference_host) notes "uuid-0"
            (<["text" := JStr "bye"]> ∅) w1) = Returned 1
  /\ fst (Repo.read (host := reference_host) notes None w2)
     = Returned [<["_id" := JStr "uuid-0"]> (<["text" := JStr "bye"]> ∅)]
  /\ fst (Repo.delete (host := reference_host) notes "uuid-0" w2) = Returned 1
  /\ fst (Repo.read (host := reference_host) notes None w3) = Returned [].
Proof. repeat split; vm_compute; reflexivity. Qed.

(** With verbose logging, update warns before it writes. *)
Example verbose_update_trace :
  trace (snd (Repo.update (host := reference_host) log "b2"
                (<["_id" := JStr "zz"]> ∅) two_notes))
  = [ConsoleWarn "Trying to update item _id: b2 with" (Some (JStr "zz"));
     SetItem "notes" (JSONText.stringify [alice; bob])].
Proof. vm_compute. reflexivity. Qed.

End Instances.

(** ** The further properties at concrete inputs *)

Section MoreInstances.
Import Example.
Local Abbreviation RH := reference_host (only parsing).
Local Abbreviation tasks := {| collection := "tasks"; verbose := false |} (only parsing).
Local Abbreviation rob := (<["_id" := JStr "zz"]> (<["name" := JStr "Rob"]> ∅) : doc)
  (only parsing).


Lemma absent_collection_is_empty_witness :
  (forall q, Repo.read (host := RH) notes q (fresh_world [carol])
             = (Returned [], fresh_world [carol]))
  /\ (forall id partial, Repo.update (host := RH) notes id partial (fresh_world [carol])
                         = (Returned 0, fresh_world [carol]))
  /\ (forall id, Repo.delete (host := RH) notes id (fresh_world [carol])
                 = (Returned 0, fresh_world [carol]))
  /\ (forall ids, Repo.deleteMany (host := RH) notes ids (fresh_world [carol])
                  = (Returned 0, fresh_world [carol])).
Proof.
  apply (absent_collection_is_empty (host := RH) (laws := reference_laws) notes
           (fresh_world [carol])).
  left. reflexivity.
Defined.

Lemma read_filters_conjoin_witness :
  exists r1 r12,
    Repo.read (host := RH) notes (Some {["name" := "Bob"]}) two_notes
    = (Returned r1, two_notes)
    /\ Repo.read (host := RH) notes (Some ({["name" := "Bob"]} ∪ {["_id" := "b2"]}))
         two_notes = (Returned r12, two_notes)
    /\ r12 = List.filter (Repo.matches {["_id" := "b2"]}) r1
    /\ select (satisfies {["_id" := "b2"]}) r1 r12.
Proof.
  apply (read_filters_conjoin (host := RH) notes {["name" := "Bob"]} {["_id" := "b2"]}
           two_notes [alice; bob]).
  - vm_compute. reflexivity.
  - apply map_disjoint_singleton_l, lookup_singleton_ne. discriminate.
Defined.

Lemma update_keeps_identifiers_witness :
  exists n w' items',
    Repo.update (host := RH) notes "b2" rob two_notes = (Returned n, w')
    /\ (n = 0 \/ n = 1)
    /\ (n = 1 <-> "b2" <> "" /\ Exists (has_id "b2") [alice; bob])
    /\ holds (host := RH) notes w' items'
    /\ ids items' = ids [alice; bob]
    /\ length items' = length [alice; bob]
    /\ (n = 0 -> w' = two_notes).
Proof.
  apply (update_keeps_identifiers (host := RH) (laws := reference_laws) notes "b2" rob
           two_notes [alice; bob]).
  vm_compute. reflexivity.
Defined.

Lemma update_effects_witness :
  exists w' text,
    Repo.update (host := RH) log "b2" rob two_notes = (Returned 1, w')
    /\ text = JSON_stringify (Host := RH)
                ([alice] ++ spread bob (delete "_id" rob) :: [])
    /\ storage w' = <[collection log := text]> (storage two_notes)
    /\ trace w'
       = trace two_notes
         ++ (if verbose log
             then [ConsoleWarn ("Trying to update item _id: " +:+ "b2" +:+ " with")
                     (rob !! "_id")]
             else [])
         ++ [SetItem (collection log) text]
    /\ exists w'',
         Repo.update (host := RH) (new_Repository (collection log) None) "b2" rob
           two_notes = (Returned 1, w'')
         /\ trace w'' = trace two_notes ++ [SetItem (collection log) text].
Proof.
  apply (update_effects (host := RH) log "b2" rob two_notes
           [alice] [] bob).
  - discriminate.
  - vm_compute. reflexivity.
  - repeat constructor; vm_compute; discriminate.
  - vm_compute. reflexivity.
Defined.


Lemma updateMany_counts_hits_witness :
  exists w' items',
    Repo.updateMany (host := RH) notes
      [{| umd_id := "b2"; umd_fields := rob |};
       {| umd_id := "nobody"; umd_fields := rob |};
       {| umd_id := "b2"; umd_fields := ∅ |}] two_notes
    = (Returned (Z.of_nat (length (List.filter
                   (fun d => names_stored [alice; bob] (umd_id d))
                   [{| umd_id := "b2"; umd_fields := rob |};
                    {| umd_id := "nobody"; umd_fields := rob |};
                    {| umd_id := "b2"; umd_fields := ∅ |}]))), w')
    /\ holds (host := RH) notes w' items'
    /\ ids items' = ids [alice; bob].
Proof.
  apply (updateMany_counts_hits (host := RH) (laws := reference_laws) notes _ two_notes
           [alice; bob]).
  vm_compute. reflexivity.
Defined.

Lemma deleteMany_counts_removed_witness :
  exists w' rest,
    Repo.deleteMany (host := RH) notes ["a1"; "b2"; "zz"] two_notes
    = (Returned (Z.of_nat (length [alice; bob]) - Z.of_nat (length rest)), w')
    /\ holds (host := RH) notes w' rest
    /\ select (fun d => Forall (fun id => ~ has_id id d) ["a1"; "b2"; "zz"])
         [alice; bob] rest
    /\ (length rest = length [alice; bob] -> w' = two_notes)
    /\ Repo.deleteMany (host := RH) notes ["a1"; "b2"; "zz"] w' = (Returned 0, w').
Proof.
  apply (deleteMany_counts_removed (host := RH) (laws := reference_laws) notes
           ["a1"; "b2"; "zz"] two_notes [alice; bob]).
  - discriminate.
  - vm_compute. reflexivity.
Defined.

Lemma delete_is_deleteMany_of_one_witness :
  exists n m w',
    Repo.delete (host := RH) notes "a1" twins = (Returned n, w')
    /\ Repo.deleteMany (host := RH) notes ["a1"] twins = (Returned m, w')
    /\ 0 <= m
    /\ n = (if m =? 0 then 0 else 1).
Proof.
  apply (delete_is_deleteMany_of_one (host := RH) notes "a1"
           twins [alice; alice]).
  - discriminate.
  - vm_compute. reflexivity.
Defined.

Lemma unique_ids_kept_witness :
  (forall id partial, exists n w' items',
     Repo.update (host := RH) notes id partial two_notes = (Returned n, w')
     /\ holds (host := RH) notes w' items' /\ NoDup (ids items'))
  /\ (forall docs, exists n w' items',
        Repo.updateMany (host := RH) notes docs two_notes = (Returned n, w')
        /\ holds (host := RH) notes w' items' /\ NoDup (ids items'))
  /\ (forall id, exists n w' items',
        Repo.delete (host := RH) notes id two_notes = (Returned n, w')
        /\ holds (host := RH) notes w' items' /\ NoDup (ids items'))
  /\ (forall given, exists n w' items',
        Repo.deleteMany (host := RH) notes given two_notes = (Returned n, w')
        /\ holds (host := RH) notes w' items' /\ NoDup (ids items')).
Proof.
  apply (unique_ids_kept (host := RH) (laws := reference_laws) notes two_notes
           [alice; bob]).
  - vm_compute. reflexivity.
  - vm_compute. apply NoDup_cons. split.
    + intros Hin. apply list_elem_of_singleton in Hin. discriminate Hin.
    + apply NoDup_singleton.
Defined.

Lemma create_appends_witness :
  exists w' objs,
    Repo.create (host := RH) notes (One 0%nat) two_notes
    = (Returned (as_array (One 0%nat)), w')
    /\ Forall2 (fun r o' => heap w' !! r = Some o'
                            /\ exists o, heap two_notes !! r = Some o
                                         /\ with_id (host := RH) o o')
         (as_array (One 0%nat)) objs
    /\ Repo.read (host := RH) notes None w' = (Returned ([alice; bob] ++ objs), w')
    /\ length ([alice; bob] ++ objs)
       = (length [alice; bob] + length (as_array (One 0%nat)))%nat
    /\ trace w' = trace two_notes
                  ++ [SetItem (collection notes)
                        (JSON_stringify (Host := RH) ([alice; bob] ++ objs))]
    /\ (forall r o, r ∉ as_array (One 0%nat) -> heap two_notes !! r = Some o ->
          heap w' !! r = Some o).
Proof.
  apply (create_appends (host := RH) (laws := reference_laws) notes (One 0%nat)
           two_notes [alice; bob]).
  - vm_compute. reflexivity.
  - repeat constructor. vm_compute. eauto.
Defined.

Lemma create_same_object_twice_witness :
  exists w' o',
    Repo.create (host := RH) notes (Many [0%nat; 0%nat]) two_notes
    = (Returned [0%nat; 0%nat], w')
    /\ o' = <["_id" := JStr (uuidv4 (Host := RH) (drawn two_notes))]> carol
    /\ heap w' !! 0%nat = Some o'
    /\ drawn w' = S (drawn two_notes)
    /\ Repo.read (host := RH) notes None w' = (Returned ([alice; bob] ++ [o'; o']), w').
Proof.
  apply (create_same_object_twice (host := RH) (laws := reference_laws) notes two_notes
           [alice; bob] 0%nat carol).
  - vm_compute. reflexivity.
  - reflexivity.
  - reflexivity.
Defined.

Lemma create_draws_apart_witness :
  exists w' n1 n2,
    Repo.create (host := RH) notes (Many [0%nat; 1%nat]) two_notes
    = (Returned (as_array (Many [0%nat; 1%nat])), w')
    /\ n1 <> n2
    /\ (drawn two_notes <= n1 < drawn w')%nat /\ (drawn two_notes <= n2 < drawn w')%nat
    /\ heap w' !! 0%nat = Some (<["_id" := JStr (uuidv4 (Host := RH) n1)]> carol)
    /\ heap w' !! 1%nat = Some (<["_id" := JStr (uuidv4 (Host := RH) n2)]> dave).
Proof.
  apply (create_draws_apart (host := RH) (laws := reference_laws) notes
           (Many [0%nat; 1%nat]) two_notes [alice; bob] 0%nat 1%nat carol dave).
  - vm_compute. reflexivity.
  - repeat constructor; vm_compute; eauto.
  - discriminate.
  - set_solver.
  - set_solver.
  - reflexivity.
  - reflexivity.
  - reflexivity.
  - reflexivity.
Defined.

Lemma create_then_delete_witness :
  exists w' o',
    Repo.create (host := RH) notes (One 0%nat) two_notes = (Returned [0%nat], w')
    /\ heap w' !! 0%nat = Some o'
    /\ forall s, has_id s o' -> Forall (fun d => ~ has_id s d) [alice; bob] ->
         exists w'', Repo.delete (host := RH) notes s w' = (Returned 1, w'')
                     /\ Repo.read (host := RH) notes None w''
                        = (Returned [alice; bob], w'').
Proof.
  apply (create_then_delete (host := RH) (laws := reference_laws) notes two_notes
           [alice; bob] 0%nat carol).
  - vm_compute. reflexivity.
  - reflexivity.
Defined.


Lemma update_then_query_witness :
  exists w' d' res,
    Repo.update (host := RH) notes "b2" rob two_notes = (Returned 1, w')
    /\ has_id "b2" d'
    /\ d' !! "name" = Some (JStr "Rob")
    /\ Repo.read (host := RH) notes (Some {["name" := "Rob"]}) w' = (Returned res, w')
    /\ d' ∈ res.
Proof.
  apply (update_then_query (host := RH) (laws := reference_laws) notes "b2" rob
           two_notes [alice] [] bob "name" "Rob").
  - discriminate.
  - vm_compute. reflexivity.
  - repeat constructor; vm_compute; discriminate.
  - vm_compute. reflexivity.
  - discriminate.
  - reflexivity.
Defined.

End MoreInstances.
